(** * Qt Creator fragments: debugger settings registry and timeline model

    Shallow embedding of
    - [src/plugins/debugger/debuggeractions.cpp]: the [DebuggerSettings]
      registry of [SavedAction]s addressed by integer action codes, and the
      persistence of the gdb-binary-to-toolchain map in a [QSettings] store;
    - [tests/auto/qmlprofiler/abstracttimelinemodel/tst_abstracttimelinemodel.cpp]:
      the [DummyModel] subclass and the test slots that drive
      [AbstractTimelineModel].

    Conventions: a C++ [int] is a [Z]; a [QString] is a [string]; a null
    pointer is [None]; a call whose behaviour C++ leaves undefined, or a loop
    that has not finished within its fuel, yields [None]. *)

From Stdlib Require Import ZArith Ascii DecimalString DecimalZ.
From Stdlib Require String.
From stdpp Require Import base option list gmap strings fin_maps.

Local Open Scope Z_scope.

(** ** Qt value types used by the sources *)

(** [QString]: the member functions the sources call. *)
Module QString.

Definition isEmpty (s : string) : bool :=
  match s with
  | EmptyString => true
  | String _ _ => false
  end.

Fixpoint contains (s : string) (c : ascii) : bool :=
  match s with
  | EmptyString => false
  | String a s' => Ascii.eqb a c || contains s' c
  end.

(** [QString::split(sep)] with the default [KeepEmptyParts]: the empty
    string splits into one empty token. *)
Fixpoint split (sep : ascii) (s : string) : list string :=
  match s with
  | EmptyString => [EmptyString]
  | String a s' =>
      if Ascii.eqb a sep then EmptyString :: split sep s'
      else match split sep s' with
           | t :: ts => String a t :: ts
           | [] => [String a EmptyString]
           end
  end.

Definition INT_MIN : Z := -2147483648.
Definition INT_MAX : Z := 2147483647.

Definition isInt (n : Z) : bool := (INT_MIN <=? n) && (n <=? INT_MAX).

(** [QString::number(int)]: decimal digits, a leading minus sign for
    negative numbers. *)
Definition number (n : Z) : string := NilZero.string_of_int (Z.to_int n).

(** White space at the two ends of a string, as [QString::toInt] skips it
    (the characters for which [QChar::isSpace] holds, below 128). *)
Fixpoint trimmedLeft (s : string) : string :=
  match s with
  | EmptyString => EmptyString
  | String a s' => if Ascii.is_space a then trimmedLeft s' else s
  end.

Fixpoint trimmedRight (s : string) : string :=
  match s with
  | EmptyString => EmptyString
  | String a s' =>
      let r := trimmedRight s' in
      if Ascii.is_space a && isEmpty r then EmptyString else String a r
  end.

Definition trimmed (s : string) : string := trimmedRight (trimmedLeft s).

(** [QString::toInt()] in base 10, as the C locale reads a numeral: white
    space around it is skipped, the numeral is an optional sign ([+] or
    [-]) directly followed by at least one decimal digit; the result is its
    value when it fits an [int], and 0 when the conversion fails. *)
Definition toInt (s : string) : Z :=
  let parsed :=
    match trimmed s with
    | String a t =>
        if Ascii.eqb a "+" then Decimal.Pos <$> NilZero.uint_of_string t
        else NilZero.int_of_string (String a t)
    | EmptyString => None
    end in
  match parsed with
  | Some d => if isInt (Z.of_int d) then Z.of_int d else 0
  | None => 0
  end.

Definition toLower_ascii (a : ascii) : ascii :=
  let n := N_of_ascii a in
  if ((65 <=? n) && (n <=? 90))%N then ascii_of_N (n + 32) else a.

Fixpoint toLower (s : string) : string :=
  match s with
  | EmptyString => EmptyString
  | String a s' => String (toLower_ascii a) (toLower s')
  end.

End QString.

(** [QStringList]: [back().append(t)] mutates the last element in place;
    on an empty list [back()] is undefined. *)
Module QStringList.

Definition push_back (l : list string) (s : string) : list string := l ++ [s].

Definition back_append (l : list string) (t : string) : option (list string) :=
  match last l with
  | None => None
  | Some x => Some (take (length l - 1)%nat l ++ [x +:+ t])
  end.

End QStringList.

(** [QVariant], restricted to the payloads the debugger settings store. *)
Inductive QVariant : Type :=
  | QVariant_Invalid
  | QVariant_Bool (b : bool)
  | QVariant_Int (n : Z)
  | QVariant_String (s : string).

Module QVariant.

Definition isValid (v : QVariant) : bool :=
  match v with
  | QVariant_Invalid => false
  | _ => true
  end.

Definition toString (v : QVariant) : string :=
  match v with
  | QVariant_Invalid => ""
  | QVariant_Bool true => "true"
  | QVariant_Bool false => "false"
  | QVariant_Int n => QString.number n
  | QVariant_String s => s
  end.

Definition toBool (v : QVariant) : bool :=
  match v with
  | QVariant_Invalid => false
  | QVariant_Bool b => b
  | QVariant_Int n => negb (n =? 0)
  | QVariant_String s =>
      let l := QString.toLower s in
      negb (QString.isEmpty l || String.eqb l "0" || String.eqb l "false")
  end.

End QVariant.

(** [QSettings] as a settings store: the stack of groups opened with
    [beginGroup] and the stored values under their full keys.  Every key
    and group name passed in is first brought into normal form. *)
Record QSettings : Type := mkQSettings {
  groupStack : list string;
  values : gmap string QVariant
}.

Module QSettings.

(** The prefix put before every key: the open groups, outermost first,
    each followed by a slash. *)
Definition groupPrefix (q : QSettings) : string :=
  foldr (fun g acc => if QString.isEmpty g then acc else acc +:+ g +:+ "/")
        "" (groupStack q).

(** [QSettingsPrivate::normalizedKey]: slashes at the two ends are dropped
    and a run of slashes counts as one, so what remains are the non-empty
    sections of the key, joined by single slashes. *)
Definition normalizedKey (key : string) : string :=
  String.concat "/" (filter (fun t => t ≠ "") (QString.split "/" key)).

Definition actualKey (q : QSettings) (key : string) : string :=
  groupPrefix q +:+ normalizedKey key.

Definition value (q : QSettings) (key : string) : QVariant :=
  default QVariant_Invalid (values q !! actualKey q key).

Definition valueOr (q : QSettings) (key : string) (defaultValue : QVariant) : QVariant :=
  default defaultValue (values q !! actualKey q key).

Definition setValue (q : QSettings) (key : string) (v : QVariant) : QSettings :=
  mkQSettings (groupStack q) (<[actualKey q key := v]> (values q)).

Definition beginGroup (q : QSettings) (g : string) : QSettings :=
  mkQSettings (normalizedKey g :: groupStack q) (values q).

Definition endGroup (q : QSettings) : QSettings :=
  mkQSettings (tail (groupStack q)) (values q).

(** [k] is the entry [theKey] itself or lies below it. *)
Definition below (theKey k : string) : bool :=
  String.eqb k theKey || String.prefix (theKey +:+ "/") k.

(** [remove(key)]: the entry and everything below it; with a key that is
    empty in normal form, everything in the current group (the whole store
    at top level). *)
Definition remove (q : QSettings) (key : string) : QSettings :=
  if QString.isEmpty (normalizedKey key) then
    if QString.isEmpty (groupPrefix q) then mkQSettings (groupStack q) ∅
    else mkQSettings (groupStack q)
           (filter (fun kv => ¬ (kv.1 +:+ "/" = groupPrefix q
                                 ∨ String.prefix (groupPrefix q) kv.1 = true))
                   (values q))
  else mkQSettings (groupStack q)
         (filter (fun kv => below (actualKey q key) kv.1 = false) (values q)).

End QSettings.

(** [QMultiMap<QString, int>]: the entries in iteration order, ascending by
    key; among equal keys the most recently inserted entry comes first. *)
Module QMultiMap.

(** [insert]: the new entry goes before the first entry whose key is not
    smaller than [k]. *)
Fixpoint insert (k : string) (v : Z) (m : list (string * Z)) : list (string * Z) :=
  match m with
  | [] => [(k, v)]
  | (k', v') :: m' =>
      if String.ltb k' k then (k', v') :: insert k v m' else (k, v) :: m
  end.

(** [key(value)]: the first key with that value, or a default-constructed
    (empty) key. *)
Fixpoint key (v : Z) (m : list (string * Z)) : string :=
  match m with
  | [] => ""
  | (k', v') :: m' => if v' =? v then k' else key v m'
  end.

Definition isEmpty (m : list (string * Z)) : bool :=
  match m with
  | [] => true
  | _ :: _ => false
  end.

End QMultiMap.

(** ** The debugger settings registry *)

(** Modelled from the spec: [Utils::SavedAction] ([utils/savedaction.h] is
    included by the source, its implementation is not among the source
    files).  The spec describes the items as GUI-bound persistent settings;
    the record keeps what the registry and the settings store see of one
    item: the settings group and key, the default and the current value, and
    whether the action is checkable.  Texts, tool tips and icons are
    presentation only and are left out. *)
Record SavedAction : Type := mkSavedAction {
  settingsGroup : string;
  settingsKey : string;
  defaultValue : QVariant;
  value : QVariant;
  isCheckable : bool
}.

Module SavedAction.

(** [new SavedAction(parent)] *)
Definition new : SavedAction :=
  mkSavedAction "" "" QVariant_Invalid QVariant_Invalid false.

Definition setSettingsKey (group key : string) (a : SavedAction) : SavedAction :=
  mkSavedAction group key (defaultValue a) (value a) (isCheckable a).

Definition setDefaultValue (v : QVariant) (a : SavedAction) : SavedAction :=
  mkSavedAction (settingsGroup a) (settingsKey a) v (value a) (isCheckable a).

Definition setValue (v : QVariant) (a : SavedAction) : SavedAction :=
  mkSavedAction (settingsGroup a) (settingsKey a) (defaultValue a) v (isCheckable a).

Definition setCheckable (b : bool) (a : SavedAction) : SavedAction :=
  mkSavedAction (settingsGroup a) (settingsKey a) (defaultValue a) (value a) b.

(** Modelled from the spec: [SavedAction::readSettings] (implementation not
    among the source files).  An item without a settings key is not
    persistent; otherwise the stored value, or the default value when the
    store has none, becomes the current value (a checkable item falls
    back to [false] when that value is invalid). *)
Definition readSettings (settings : QSettings) (a : SavedAction) : SavedAction :=
  if QString.isEmpty (settingsGroup a) || QString.isEmpty (settingsKey a) then a
  else
    let var := QSettings.valueOr settings
                 (settingsGroup a +:+ "/" +:+ settingsKey a) (defaultValue a) in
    let var := if isCheckable a && negb (QVariant.isValid var)
               then QVariant_Bool false else var in
    setValue var a.

(** Modelled from the spec: [SavedAction::writeSettings] (implementation
    not among the source files).  A persistent item stores its current
    value under its key inside its group. *)
Definition writeSettings (settings : QSettings) (a : SavedAction) : QSettings :=
  if QString.isEmpty (settingsGroup a) || QString.isEmpty (settingsKey a) then settings
  else
    let settings := QSettings.beginGroup settings (settingsGroup a) in
    let settings := QSettings.setValue settings (settingsKey a) (value a) in
    QSettings.endGroup settings.

End SavedAction.

(** The action codes [DebuggerSettings::instance] registers.  The
    enumeration is declared in [debuggeractions.h]. *)
Inductive DebuggerActionCode : Type :=
  | SettingsDialog | AdjustColumnWidths | AlwaysAdjustColumnWidths
  | UseAlternatingRowColors | UseMessageBoxForSignals | LogTimeStamps
  | VerboseLog | OperateByInstruction | AutoDerefPointers
  | ShowStdNamespace | ShowQtNamespace | SortStructMembers
  | UseDebuggingHelpers | UseCustomDebuggingHelperLocation
  | CustomDebuggingHelperLocation | DebugDebuggingHelpers | UseCodeModel
  | SynchronizeBreakpoints | AdjustBreakpointLocations | BreakOnThrow
  | BreakOnCatch | GdbEnvironment | GdbScriptFile | CloseBuffersOnExit
  | SwitchModeOnExit | AutoQuit | UseToolTipsInMainEditor
  | UseToolTipsInLocalsView | UseToolTipsInBreakpointsView
  | UseAddressInBreakpointsView | UseAddressInStackView | ListSourceFiles
  | SkipKnownFrames | EnableReverseDebugging | RegisterForPostMortem
  | AllPluginBreakpoints | SelectedPluginBreakpoints | NoPluginBreakpoints
  | SelectedPluginBreakpointsPattern | MaximalStackDepth | ExpandStack
  | CreateFullBacktrace | ExecuteCommand | GdbWatchdogTimeout.

(** What the build fixes and the sources do not show: the platform macros
    tested with [#ifdef], the integer value of each action code
    ([debuggeractions.h]) and the [ProjectExplorer::ToolChain::ToolChainType]
    constants used for the Linux defaults ([projectexplorer/toolchain.h]). *)
Class Build : Type := mkBuild {
  Q_OS_UNIX : bool;
  Q_OS_WIN : bool;
  enumValue : DebuggerActionCode -> Z;
  GCC : Z;
  LINUX_ICC : Z;
  OTHER : Z;
  UNKNOWN : Z
}.

Definition debugModeSettingsGroupC : string := "DebugMode".
Definition gdbBinariesSettingsGroupC : string := "GdbBinaries21".
Definition debugModeGdbBinaryKeyC : string := "GdbBinary".

(** Modelled from the spec: the typedef [GdbBinaryToolChainMap]
    ([debuggeractions.h], not among the source files).  The source stores
    several toolchains under one binary and groups equal consecutive keys
    when writing, so the type is a [QMultiMap<QString, int>]. *)
Abbreviation GdbBinaryToolChainMap := (list (string * Z)).

(** The two members of [DebuggerSettings]: [m_items] (a [QHash] from action
    code to the owned [SavedAction]) and [m_gdbBinaryToolChainMap]. *)
Record DebuggerSettings : Type := mkDebuggerSettings {
  m_items : gmap Z SavedAction;
  m_gdbBinaryToolChainMap : GdbBinaryToolChainMap
}.

(** [DebuggerSettings::DebuggerSettings] *)
Definition DebuggerSettings_new : DebuggerSettings := mkDebuggerSettings ∅ [].

(** [DebuggerSettings::insertItem]: the first [QTC_ASSERT] returns when the
    code is taken; the second one only prints. *)
Definition insertItem (code : Z) (item : SavedAction) (d : DebuggerSettings)
  : DebuggerSettings :=
  match m_items d !! code with
  | Some _ => d
  | None => mkDebuggerSettings (<[code := item]> (m_items d)) (m_gdbBinaryToolChainMap d)
  end.

(** [DebuggerSettings::item]: [m_items.value(code, 0)]; the [QTC_ASSERT]
    returns 0 when that pointer is null. *)
Definition item (d : DebuggerSettings) (code : Z) : option SavedAction :=
  match m_items d !! code with
  | None => None
  | Some a => m_items d !! code
  end.

(** One toolchain token of a settings line (the body of the [foreach] in
    [gdbBinaryToolChainMapFromSettings]). *)
Definition insertToolChain (binary : string) (gdbBinaryToolChainMap : GdbBinaryToolChainMap)
    (t : string) : GdbBinaryToolChainMap :=
  let toolChain := QString.toInt t in
  let predefinedGdb := QMultiMap.key toolChain gdbBinaryToolChainMap in
  if QString.isEmpty predefinedGdb
  then QMultiMap.insert binary toolChain gdbBinaryToolChainMap
  else gdbBinaryToolChainMap.

Definition gdbBinaryKeyRoot : string :=
  gdbBinariesSettingsGroupC +:+ "/" +:+ debugModeGdbBinaryKeyC.

(** The value read at index [i] of the flat list. *)
Definition gdbBinaryValue (settings : QSettings) (i : Z) : string :=
  QVariant.toString (QSettings.value settings (gdbBinaryKeyRoot +:+ QString.number i)).

(** The two [break] conditions of the loop. *)
Definition gdbBinaryStops (settings : QSettings) (i : Z) : bool :=
  QString.isEmpty (gdbBinaryValue settings i)
  || (length (QString.split "," (gdbBinaryValue settings i)) <? 2)%nat.

(** The loop [for (int i = 1; ; i++)] of [gdbBinaryToolChainMapFromSettings],
    started at [i] with the map built so far.  It has no bound of its own;
    [fuel] counts the iterations still allowed, and the result is the value
    of [i] at the [break] together with the map. *)
Fixpoint gdbBinariesLoop (fuel : nat) (settings : QSettings) (i : Z)
    (gdbBinaryToolChainMap : GdbBinaryToolChainMap) : option (Z * GdbBinaryToolChainMap) :=
  match fuel with
  | O => None
  | S fuel' =>
      let value := gdbBinaryValue settings i in
      if QString.isEmpty value then Some (i, gdbBinaryToolChainMap)
      else
        let tokens := QString.split "," value in
        if (length tokens <? 2)%nat then Some (i, gdbBinaryToolChainMap)
        else
          match tokens with
          | [] => Some (i, gdbBinaryToolChainMap)
          | binary :: tokens' =>
              gdbBinariesLoop fuel' settings (i + 1)
                (foldl (insertToolChain binary) gdbBinaryToolChainMap tokens')
          end
  end.

(** The Linux defaults of [gdbBinaryToolChainMapFromSettings]. *)
Definition linuxDefaults `{Build} : GdbBinaryToolChainMap :=
  let gdb := "gdb" in
  QMultiMap.insert gdb UNKNOWN
    (QMultiMap.insert gdb OTHER
       (QMultiMap.insert gdb LINUX_ICC
          (QMultiMap.insert gdb GCC []))).

(** [DebuggerSettings::gdbBinaryToolChainMapFromSettings].  Every iteration
    that does not [break] reads a different stored key, so one iteration
    more than the store has entries is all the loop can ever need
    ([gdbBinaryToolChainMapFromSettings_total]). *)
Definition gdbBinaryToolChainMapFromSettings `{Build} (settings : QSettings)
  : option GdbBinaryToolChainMap :=
  match gdbBinariesLoop (S (size (values settings))) settings 1 [] with
  | None => None
  | Some (_, gdbBinaryToolChainMap) =>
      Some (if Q_OS_UNIX && QMultiMap.isEmpty gdbBinaryToolChainMap
            then linuxDefaults else gdbBinaryToolChainMap)
  end.

(** [DebuggerSettings::readSettings] *)
Definition readSettings `{Build} (settings : QSettings) (d : DebuggerSettings)
  : option DebuggerSettings :=
  let items := SavedAction.readSettings settings <$> m_items d in
  match gdbBinaryToolChainMapFromSettings settings with
  | None => None
  | Some m => Some (mkDebuggerSettings items m)
  end.

(** The body of the iterator loop of [writeSettings]: [st] is
    [(lastBinary, settingsList)]. *)
Definition appendToolChain (st : string * list string) (it : string * Z)
  : option (string * list string) :=
  let '(lastBinary, settingsList) := st in
  let '(lastBinary, settingsList) :=
    if negb (String.eqb it.1 lastBinary)
    then (it.1, QStringList.push_back settingsList it.1)
    else (lastBinary, settingsList) in
  settingsList ← QStringList.back_append settingsList ",";
  settingsList ← QStringList.back_append settingsList (QString.number it.2);
  Some (lastBinary, settingsList).

Fixpoint buildSettingsList (st : string * list string) (m : GdbBinaryToolChainMap)
  : option (string * list string) :=
  match m with
  | [] => Some st
  | it :: m' => st' ← appendToolChain st it; buildSettingsList st' m'
  end.

(** The loop [for (int i = 0; i < count; i++)] of [writeSettings], from
    index [i] on; [l] holds [settingsList.at(i)] and the elements after it. *)
Fixpoint writeSettingsList (settings : QSettings) (i : Z) (l : list string) : QSettings :=
  match l with
  | [] => settings
  | s :: l' =>
      writeSettingsList
        (QSettings.setValue settings (debugModeGdbBinaryKeyC +:+ QString.number (i + 1))
                            (QVariant_String s))
        (i + 1) l'
  end.

(** The first loop of [writeSettings]: every registered item writes itself.
    A [QHash] is visited in an unspecified order; the order of [map_to_list]
    stands for it, and [writeItems_order_independent] shows when the order
    is immaterial. *)
Definition writeItems (settings : QSettings) (d : DebuggerSettings) : QSettings :=
  foldl SavedAction.writeSettings settings (snd <$> map_to_list (m_items d)).

(** [DebuggerSettings::writeSettings] *)
Definition writeSettings `{Build} (settings : QSettings) (d : DebuggerSettings)
  : option QSettings :=
  let settings := writeItems settings d in
  stored ← gdbBinaryToolChainMapFromSettings settings;
  if bool_decide (m_gdbBinaryToolChainMap d = stored) then Some settings
  else
    st ← buildSettingsList ("", []) (m_gdbBinaryToolChainMap d);
    let settingsList := QStringList.push_back st.2 "" in
    let settings := QSettings.beginGroup settings gdbBinariesSettingsGroupC in
    let settings := QSettings.remove settings "" in
    let settings := writeSettingsList settings 0 settingsList in
    Some (QSettings.endGroup settings).

(** [item->setter(...)] calls read top to bottom as in the source. *)
Local Notation "a |> f" := (f a) (at level 45, left associativity, only parsing).

(** The items [DebuggerSettings::instance] creates, in the order of their
    [insertItem] calls, each with the settings-related calls made on it. *)
Definition registeredItems `{Build} : list (DebuggerActionCode * SavedAction) :=
  let debugModeGroup := debugModeSettingsGroupC in
  let checkable g k dflt :=
    SavedAction.new |> SavedAction.setSettingsKey g k
                    |> SavedAction.setCheckable true
                    |> SavedAction.setDefaultValue (QVariant_Bool dflt) in
  let checkableSet g k dflt :=
    checkable g k dflt |> SavedAction.setValue (QVariant_Bool dflt) in
  [ (SettingsDialog, SavedAction.new);
    (* View *)
    (AdjustColumnWidths, SavedAction.new);
    (AlwaysAdjustColumnWidths, SavedAction.new |> SavedAction.setCheckable true);
    (UseAlternatingRowColors, checkable debugModeGroup "UseAlternatingRowColours" false);
    (UseMessageBoxForSignals, checkableSet debugModeGroup "UseMessageBoxForSignals" true);
    (LogTimeStamps, checkable debugModeGroup "LogTimeStamps" false);
    (VerboseLog, checkable debugModeGroup "VerboseLog" false);
    (OperateByInstruction,
      SavedAction.new |> SavedAction.setCheckable true
                      |> SavedAction.setDefaultValue (QVariant_Bool false));
    (AutoDerefPointers, checkable debugModeGroup "AutoDerefPointers" true);
    (* Locals & Watchers *)
    (ShowStdNamespace, checkableSet debugModeGroup "ShowStandardNamespace" true);
    (ShowQtNamespace, checkableSet debugModeGroup "ShowQtNamespace" true);
    (SortStructMembers, checkableSet debugModeGroup "SortStructMembers" true);
    (* DebuggingHelper *)
    (UseDebuggingHelpers, checkableSet debugModeGroup "UseDebuggingHelper" true);
    (UseCustomDebuggingHelperLocation,
      checkableSet debugModeGroup "UseCustomDebuggingHelperLocation" false);
    (CustomDebuggingHelperLocation,
      SavedAction.new |> SavedAction.setSettingsKey debugModeGroup "CustomDebuggingHelperLocation"
                      |> SavedAction.setCheckable true
                      |> SavedAction.setDefaultValue (QVariant_String "")
                      |> SavedAction.setValue (QVariant_String ""));
    (DebugDebuggingHelpers, checkableSet debugModeGroup "DebugDebuggingHelpers" false);
    (UseCodeModel, checkableSet debugModeGroup "UseCodeModel" true);
    (* Breakpoints *)
    (SynchronizeBreakpoints, SavedAction.new);
    (AdjustBreakpointLocations,
      checkableSet debugModeGroup "AdjustBreakpointLocations" true);
    (BreakOnThrow, checkableSet debugModeGroup "BreakOnThrow" false);
    (BreakOnCatch, checkableSet debugModeGroup "BreakOnCatch" false);
    (* Settings *)
    (GdbEnvironment,
      SavedAction.new |> SavedAction.setSettingsKey debugModeGroup "Environment"
                      |> SavedAction.setDefaultValue (QVariant_String ""));
    (GdbScriptFile,
      SavedAction.new |> SavedAction.setSettingsKey debugModeGroup "ScriptFile"
                      |> SavedAction.setDefaultValue (QVariant_String ""));
    (CloseBuffersOnExit, checkable debugModeGroup "CloseBuffersOnExit" false);
    (SwitchModeOnExit, checkable debugModeGroup "SwitchModeOnExit" false);
    (AutoQuit, checkable debugModeGroup "AutoQuit" false);
    (UseToolTipsInMainEditor, checkable debugModeGroup "UseToolTips" false);
    (UseToolTipsInLocalsView, checkable debugModeGroup "UseToolTipsInLocalsView" false);
    (UseToolTipsInBreakpointsView,
      checkable debugModeGroup "UseToolTipsInBreakpointsView" false);
    (UseAddressInBreakpointsView,
      checkable debugModeGroup "UseAddressInBreakpointsView" false);
    (UseAddressInStackView, checkable debugModeGroup "UseAddressInStackView" false);
    (ListSourceFiles, checkable debugModeGroup "ListSourceFiles" false);
    (SkipKnownFrames, checkable debugModeGroup "SkipKnownFrames" false);
    (EnableReverseDebugging, checkable debugModeGroup "EnableReverseDebugging" false) ]
  ++ (if Q_OS_WIN
      then [ (RegisterForPostMortem, checkable debugModeGroup "RegisterForPostMortem" false) ]
      else [])
  ++
  [ (AllPluginBreakpoints,
      SavedAction.new |> SavedAction.setSettingsKey debugModeGroup "AllPluginBreakpoints"
                      |> SavedAction.setDefaultValue (QVariant_Bool true));
    (SelectedPluginBreakpoints,
      SavedAction.new |> SavedAction.setSettingsKey debugModeGroup "SelectedPluginBreakpoints"
                      |> SavedAction.setDefaultValue (QVariant_Bool false));
    (NoPluginBreakpoints,
      SavedAction.new |> SavedAction.setSettingsKey debugModeGroup "NoPluginBreakpoints"
                      |> SavedAction.setDefaultValue (QVariant_Bool false));
    (SelectedPluginBreakpointsPattern,
      SavedAction.new |> SavedAction.setSettingsKey debugModeGroup "SelectedPluginBreakpointsPattern"
                      |> SavedAction.setDefaultValue (QVariant_String ".*"));
    (MaximalStackDepth,
      SavedAction.new |> SavedAction.setSettingsKey debugModeGroup "MaximalStackDepth"
                      |> SavedAction.setDefaultValue (QVariant_Int 20));
    (ExpandStack, SavedAction.new);
    (CreateFullBacktrace, SavedAction.new);
    (ExecuteCommand, SavedAction.new);
    (GdbWatchdogTimeout,
      SavedAction.new |> SavedAction.setSettingsKey debugModeGroup "WatchdogTimeout"
                      |> SavedAction.setDefaultValue (QVariant_Int 20)) ].

(** [DebuggerSettings::instance]: the function-local static pointer is the
    state [inst] ([None] while it is 0); the first call builds the registry. *)
Definition instance `{Build} (inst : option DebuggerSettings)
  : DebuggerSettings * option DebuggerSettings :=
  match inst with
  | Some d => (d, inst)
  | None =>
      let d := foldl (fun d ci => insertItem (enumValue ci.1) ci.2 d)
                     DebuggerSettings_new registeredItems in
      (d, Some d)
  end.

(** [theDebuggerAction] *)
Definition theDebuggerAction `{Build} (code : Z) (inst : option DebuggerSettings)
  : option SavedAction * option DebuggerSettings :=
  let '(d, inst') := instance inst in (item d code, inst').

(** [theDebuggerBoolSetting]; dereferencing the null pointer that [item]
    returns for an unknown code is undefined ([None]). *)
Definition theDebuggerBoolSetting `{Build} (code : Z) (inst : option DebuggerSettings)
  : option bool * option DebuggerSettings :=
  let '(d, inst') := instance inst in
  (a ← item d code; Some (QVariant.toBool (value a)), inst').

(** [theDebuggerStringSetting] *)
Definition theDebuggerStringSetting `{Build} (code : Z) (inst : option DebuggerSettings)
  : option string * option DebuggerSettings :=
  let '(d, inst') := instance inst in
  (a ← item d code; Some (QVariant.toString (value a)), inst').

(** The operations of the file as one interface on the state they can see:
    the singleton pointer and a settings store. *)
Record World : Type := mkWorld {
  theInstance : option DebuggerSettings;
  theSettings : QSettings
}.

Inductive Operation : Type :=
  | Call_insertItem (code : Z) (a : SavedAction)
  | Call_item (code : Z)
  | Call_gdbBinaryToolChainMapFromSettings
  | Call_readSettings
  | Call_writeSettings
  | Call_theDebuggerBoolSetting (code : Z)
  | Call_theDebuggerStringSetting (code : Z).

Inductive Result : Type :=
  | Void
  | Pointer (a : option SavedAction)
  | Map (m : GdbBinaryToolChainMap)
  | Bool (b : bool)
  | Str (s : string).

(** [DebuggerSettings::instance()->op(...)] on the world; [None] when the
    call is undefined. *)
Definition call `{Build} (op : Operation) (w : World) : option (Result * World) :=
  let '(d, inst) := instance (theInstance w) in
  match op with
  | Call_insertItem code a =>
      Some (Void, mkWorld (Some (insertItem code a d)) (theSettings w))
  | Call_item code =>
      Some (Pointer (item d code), mkWorld inst (theSettings w))
  | Call_gdbBinaryToolChainMapFromSettings =>
      m ← gdbBinaryToolChainMapFromSettings (theSettings w);
      Some (Map m, mkWorld inst (theSettings w))
  | Call_readSettings =>
      d' ← readSettings (theSettings w) d;
      Some (Void, mkWorld (Some d') (theSettings w))
  | Call_writeSettings =>
      settings ← writeSettings (theSettings w) d;
      Some (Void, mkWorld inst settings)
  | Call_theDebuggerBoolSetting code =>
      b ← (theDebuggerBoolSetting code (theInstance w)).1;
      Some (Bool b, mkWorld inst (theSettings w))
  | Call_theDebuggerStringSetting code =>
      s ← (theDebuggerStringSetting code (theInstance w)).1;
      Some (Str s, mkWorld inst (theSettings w))
  end.

(** ** The order in which the registry is visited *)





(** A sample build for running the definitions: a Unix build, the action
    codes numbered in the order of their registration, and toolchain
    constants chosen pairwise different. *)
Definition sampleEnumValue (c : DebuggerActionCode) : Z :=
  match c with
  | SettingsDialog => 0 | AdjustColumnWidths => 1 | AlwaysAdjustColumnWidths => 2
  | UseAlternatingRowColors => 3 | UseMessageBoxForSignals => 4 | LogTimeStamps => 5
  | VerboseLog => 6 | OperateByInstruction => 7 | AutoDerefPointers => 8
  | ShowStdNamespace => 9 | ShowQtNamespace => 10 | SortStructMembers => 11
  | UseDebuggingHelpers => 12 | UseCustomDebuggingHelperLocation => 13
  | CustomDebuggingHelperLocation => 14 | DebugDebuggingHelpers => 15
  | UseCodeModel => 16 | SynchronizeBreakpoints => 17
  | AdjustBreakpointLocations => 18 | BreakOnThrow => 19 | BreakOnCatch => 20
  | GdbEnvironment => 21 | GdbScriptFile => 22 | CloseBuffersOnExit => 23
  | SwitchModeOnExit => 24 | AutoQuit => 25 | UseToolTipsInMainEditor => 26
  | UseToolTipsInLocalsView => 27 | UseToolTipsInBreakpointsView => 28
  | UseAddressInBreakpointsView => 29 | UseAddressInStackView => 30
  | ListSourceFiles => 31 | SkipKnownFrames => 32 | EnableReverseDebugging => 33
  | RegisterForPostMortem => 34 | AllPluginBreakpoints => 35
  | SelectedPluginBreakpoints => 36 | NoPluginBreakpoints => 37
  | SelectedPluginBreakpointsPattern => 38 | MaximalStackDepth => 39
  | ExpandStack => 40 | CreateFullBacktrace => 41 | ExecuteCommand => 42
  | GdbWatchdogTimeout => 43
  end.

Definition unixBuild : Build := mkBuild true false sampleEnumValue 0 1 200 201.
Definition windowsBuild : Build := mkBuild false true sampleEnumValue 0 1 200 201.

Definition emptySettings : QSettings := mkQSettings [] ∅.

(** ** The timeline model driven by the unit test *)

Module Timeline.

(** Constants of the test file. *)
Definition DefaultRowHeight : Z := 30.
Definition NumItems : Z := 10.
Definition ItemDuration : Z := Z.shiftl 1 19.
Definition ItemSpacing : Z := Z.shiftl 1 20.

(** The signals the test observes through [QSignalSpy]. *)
Inductive Signal : Type := expandedChanged | hiddenChanged.

(** [QColor], as far as the test compares colours: the default-constructed
    (invalid) colour and a colour given by hue, saturation and lightness. *)
Inductive QColor : Type :=
  | QColor_default
  | QColor_hsl (h s l : Z).

(** [QColor::fromHsl]: parameters out of range give the invalid colour
    (the hue -1 stands for an achromatic colour and is in range). *)
Definition QColor_fromHsl (h s l : Z) : QColor :=
  if (((h <? 0) || (360 <=? h)) && negb (h =? -1))
     || (s <? 0) || (255 <? s) || (l <? 0) || (255 <? l)
  then QColor_default
  else QColor_hsl h s l.

(** Modelled from the spec: the state of [AbstractTimelineModel] behind
    its private class ([qmlprofiler/abstracttimelinemodel.h] and
    [abstracttimelinemodel_p.h] are included by the test, the class itself
    is not among the source files).  [emitted] records the signals sent so
    far, oldest first. *)
Record AbstractTimelineModel : Type := mkModel {
  d_expanded : bool;
  d_hidden : bool;
  d_rowHeights : gmap Z Z;
  collapsedRowCount : Z;
  expandedRowCount : Z;
  ranges : list (Z * Z * Z);
  emitted : list Signal
}.

(** [DummyModel::DummyModel] *)
Definition DummyModel_new : AbstractTimelineModel :=
  mkModel false false ∅ 1 1 [] [].

(** Modelled from the spec: [AbstractTimelineModel::expanded] and
    [hidden] return the stored flags. *)
Definition expanded (m : AbstractTimelineModel) : bool := d_expanded m.
Definition hidden (m : AbstractTimelineModel) : bool := d_hidden m.

(** Modelled from the spec: [AbstractTimelineModel::setExpanded] stores
    the flag and emits [expandedChanged] when the stored flag changes. *)
Definition setExpanded (b : bool) (m : AbstractTimelineModel) : AbstractTimelineModel :=
  if Bool.eqb b (d_expanded m) then m
  else mkModel b (d_hidden m) (d_rowHeights m) (collapsedRowCount m)
               (expandedRowCount m) (ranges m) (emitted m ++ [expandedChanged]).

(** Modelled from the spec: [AbstractTimelineModel::setHidden] stores the
    flag and emits [hiddenChanged] when the stored flag changes. *)
Definition setHidden (b : bool) (m : AbstractTimelineModel) : AbstractTimelineModel :=
  if Bool.eqb b (d_hidden m) then m
  else mkModel (d_expanded m) b (d_rowHeights m) (collapsedRowCount m)
               (expandedRowCount m) (ranges m) (emitted m ++ [hiddenChanged]).

(** Modelled from the spec: [AbstractTimelineModel::rowHeight] is the
    default height while the model is collapsed and for rows whose height
    was never set, and the height set for the row otherwise. *)
Definition rowHeight (m : AbstractTimelineModel) (rowNumber : Z) : Z :=
  if d_expanded m then default DefaultRowHeight (d_rowHeights m !! rowNumber)
  else DefaultRowHeight.

(** What [setRowHeight] does with a height below the default.  The test
    only checks that a row which reported the default still reports it
    after such a call; both ignoring the call and raising the height to the
    default do that, and neither the test nor the spec tells them apart. *)
Inductive TooSmallHeight : Type := Ignored | RaisedToDefault.

(** Modelled from the spec: [AbstractTimelineModel::setRowHeight] does
    nothing while the model is not expanded; on an expanded model it
    records the height of the row, a height below the default being dealt
    with as [tooSmall] says. *)
Definition setRowHeight (tooSmall : TooSmallHeight) (rowNumber height : Z)
    (m : AbstractTimelineModel) : AbstractTimelineModel :=
  let record h :=
    mkModel (d_expanded m) (d_hidden m) (<[rowNumber := h]> (d_rowHeights m))
            (collapsedRowCount m) (expandedRowCount m) (ranges m) (emitted m) in
  if negb (d_expanded m) then m
  else if height <? DefaultRowHeight then
    match tooSmall with
    | Ignored => m
    | RaisedToDefault => record DefaultRowHeight
    end
  else record height.

(** Modelled from the spec: [AbstractTimelineModel::rowOffset] is the sum
    of the heights of the rows above. *)
Definition rowOffset (m : AbstractTimelineModel) (rowNumber : Z) : Z :=
  foldr (fun r acc => rowHeight m r + acc) 0 (seqZ 0 rowNumber).

(** Modelled from the spec: [AbstractTimelineModel::insert] appends a
    range (start, duration, type id). *)
Definition insert (start duration : Z) (typeId : Z) (m : AbstractTimelineModel)
  : AbstractTimelineModel :=
  mkModel (d_expanded m) (d_hidden m) (d_rowHeights m) (collapsedRowCount m)
          (expandedRowCount m) (ranges m ++ [(start, duration, typeId)]) (emitted m).

(** [DummyModel::loadData] *)
Definition loadData (m : AbstractTimelineModel) : AbstractTimelineModel :=
  let m := foldl (fun m i => insert (i * ItemSpacing) ItemDuration 0 m) m (seqZ 0 NumItems) in
  mkModel (d_expanded m) (d_hidden m) (d_rowHeights m) 2 2 (ranges m) (emitted m).

(** [DummyModel::selectionId] *)
Definition selectionId (index : Z) : Z := index.

(** How a hue is brought below 360.  The test passes the hues 10, 500 and
    125 only; for a negative hue the remainder of C++'s [%], which has the
    sign of the hue, and the remainder that is never negative differ, and
    neither the test nor the spec tells them apart. *)
Inductive HueReduction : Type := Truncated | Floored.

(** Modelled from the spec: [AbstractTimelineModel::colorByHue] is the HSL
    colour of the hue reduced by 360, with saturation 150 and lightness
    166. *)
Definition colorByHue (reduction : HueReduction) (hue : Z) : QColor :=
  let h := match reduction with
           | Truncated => Z.rem hue 360
           | Floored => hue `mod` 360
           end in
  QColor_fromHsl h 150 166.

(** Modelled from the spec: [AbstractTimelineModel::colorBySelectionId]
    uses 25 times the selection id of the item as hue; the product is an
    [int], and undefined when it does not fit one. *)
Definition colorBySelectionId (reduction : HueReduction) (index : Z) : option QColor :=
  let hue := selectionId index * 25 in
  if QString.isInt hue then Some (colorByHue reduction hue) else None.

#[export] Instance Signal_eq_dec : EqDecision Signal.
Proof. solve_decision. Defined.

#[export] Instance QColor_eq_dec : EqDecision QColor.
Proof. solve_decision. Defined.

(** [QSignalSpy::count] for one signal. *)
Definition spyCount (s : Signal) (m : AbstractTimelineModel) : Z :=
  Z.of_nat (length (filter (fun x => x = s) (emitted m))).

(** What a client can do to a model between two observations. *)
Inductive Call : Type :=
  | Call_setRowHeight (rowNumber height : Z)
  | Call_setExpanded (b : bool)
  | Call_setHidden (b : bool)
  | Call_loadData.

Definition call (tooSmall : TooSmallHeight) (m : AbstractTimelineModel) (c : Call)
  : AbstractTimelineModel :=
  match c with
  | Call_setRowHeight r h => setRowHeight tooSmall r h m
  | Call_setExpanded b => setExpanded b m
  | Call_setHidden b => setHidden b m
  | Call_loadData => loadData m
  end.

(** The model a fresh [DummyModel] becomes under a sequence of calls. *)
Definition after (tooSmall : TooSmallHeight) (cs : list Call) : AbstractTimelineModel :=
  foldl (call tooSmall) DummyModel_new cs.

(** [QCOMPARE] on integers and colours. *)
Definition QCOMPARE (a b : Z) : bool := a =? b.
Definition QCOMPARE_color (a b : QColor) : bool := bool_decide (a = b).
Definition QCOMPARE_color_opt (a : option QColor) (b : QColor) : bool :=
  bool_decide (a = Some b).

(** [tst_AbstractTimelineModel::rowHeight]: [true] when every check passes. *)
Definition tst_rowHeight (tooSmall : TooSmallHeight) : bool :=
  let setRowHeight := setRowHeight tooSmall in
  let dummy := DummyModel_new in
  QCOMPARE (rowHeight dummy 0) DefaultRowHeight &&
  (* Cannot set while not expanded *)
  let dummy := setRowHeight 0 100 dummy in
  QCOMPARE (rowHeight dummy 0) DefaultRowHeight &&
  let dummy := setExpanded true dummy in
  QCOMPARE (rowHeight dummy 0) DefaultRowHeight &&
  (* Cannot set smaller than default *)
  let dummy := setRowHeight 0 (DefaultRowHeight - 1) dummy in
  QCOMPARE (rowHeight dummy 0) DefaultRowHeight &&
  let dummy := setRowHeight 0 100 dummy in
  QCOMPARE (rowHeight dummy 0) 100 &&
  let dummy := loadData dummy in
  let dummy := setRowHeight 1 50 dummy in
  QCOMPARE (rowHeight dummy 0) 100 &&
  QCOMPARE (rowHeight dummy 1) 50 &&
  (* Row heights ignored while collapsed ... *)
  let dummy := setExpanded false dummy in
  QCOMPARE (rowHeight dummy 0) DefaultRowHeight &&
  QCOMPARE (rowHeight dummy 1) DefaultRowHeight &&
  (* ... but restored when re-expanding *)
  let dummy := setExpanded true dummy in
  QCOMPARE (rowHeight dummy 0) 100 &&
  QCOMPARE (rowHeight dummy 1) 50.

(** [tst_AbstractTimelineModel::rowOffset] *)
Definition tst_rowOffset (tooSmall : TooSmallHeight) : bool :=
  let setRowHeight := setRowHeight tooSmall in
  let dummy := DummyModel_new in
  QCOMPARE (rowOffset dummy 0) 0 &&
  let dummy := loadData dummy in
  let dummy := setExpanded true dummy in
  QCOMPARE (rowOffset dummy 0) 0 &&
  QCOMPARE (rowOffset dummy 1) DefaultRowHeight &&
  let dummy := setRowHeight 0 100 dummy in
  QCOMPARE (rowOffset dummy 0) 0 &&
  QCOMPARE (rowOffset dummy 1) 100 &&
  let dummy := setRowHeight 1 50 dummy in
  QCOMPARE (rowOffset dummy 0) 0 &&
  QCOMPARE (rowOffset dummy 1) 100 &&
  (* Row heights ignored while collapsed ... *)
  let dummy := setExpanded false dummy in
  QCOMPARE (rowOffset dummy 0) 0 &&
  QCOMPARE (rowOffset dummy 1) DefaultRowHeight &&
  (* ... but restored when re-expanding *)
  let dummy := setExpanded true dummy in
  QCOMPARE (rowOffset dummy 0) 0 &&
  QCOMPARE (rowOffset dummy 1) 100.

(** [tst_AbstractTimelineModel::expand] *)
Definition tst_expand : bool :=
  let dummy := DummyModel_new in
  let spy := spyCount expandedChanged in
  negb (expanded dummy) &&
  let dummy := setExpanded true dummy in
  expanded dummy && QCOMPARE (spy dummy) 1 &&
  let dummy := setExpanded true dummy in
  expanded dummy && QCOMPARE (spy dummy) 1 &&
  let dummy := setExpanded false dummy in
  negb (expanded dummy) && QCOMPARE (spy dummy) 2 &&
  let dummy := setExpanded false dummy in
  negb (expanded dummy) && QCOMPARE (spy dummy) 2.

(** [tst_AbstractTimelineModel::hide] *)
Definition tst_hide : bool :=
  let dummy := DummyModel_new in
  let spy := spyCount hiddenChanged in
  negb (hidden dummy) &&
  let dummy := setHidden true dummy in
  hidden dummy && QCOMPARE (spy dummy) 1 &&
  let dummy := setHidden true dummy in
  hidden dummy && QCOMPARE (spy dummy) 1 &&
  let dummy := setHidden false dummy in
  negb (hidden dummy) && QCOMPARE (spy dummy) 2 &&
  let dummy := setHidden false dummy in
  negb (hidden dummy) && QCOMPARE (spy dummy) 2.

(** [tst_AbstractTimelineModel::colorByHue] *)
Definition tst_colorByHue (reduction : HueReduction) : bool :=
  QCOMPARE_color (colorByHue reduction 10) (QColor_fromHsl 10 150 166) &&
  QCOMPARE_color (colorByHue reduction 500) (QColor_fromHsl 140 150 166).

(** [tst_AbstractTimelineModel::colorByTypeId] *)
Definition tst_colorByTypeId (reduction : HueReduction) : bool :=
  let dummy := loadData DummyModel_new in
  QCOMPARE_color_opt (colorBySelectionId reduction 5) (QColor_fromHsl (5 * 25) 150 166).

End Timeline.

(** ** Notions used to state the properties *)

(** What one settings line adds to the map: the tokens after the binary,
    left to right. *)
Definition decodeLine (m : GdbBinaryToolChainMap) (line : string) : GdbBinaryToolChainMap :=
  match QString.split "," line with
  | [] => m
  | binary :: tokens => foldl (insertToolChain binary) m tokens
  end.

Definition decodeLines (m : GdbBinaryToolChainMap) (lines : list string)
  : GdbBinaryToolChainMap :=
  foldl decodeLine m lines.

(** A line at which the loop goes on: not empty, at least two tokens. *)
Definition goodLine (line : string) : bool :=
  negb (QString.isEmpty line || (length (QString.split "," line) <? 2)%nat).

(** The flat list stored from index [i] on starts with [lines]. *)
Definition storedLines (settings : QSettings) (i : Z) (lines : list string) : Prop :=
  ∀ (j : nat) (x : string), lines !! j = Some x → gdbBinaryValue settings (i + Z.of_nat j) = x.

(** The full key of entry [i] of the flat list, inside the current group. *)
Definition gdbBinaryKey (settings : QSettings) (i : Z) : string :=
  QSettings.actualKey settings (gdbBinaryKeyRoot +:+ QString.number i).

(** The keys of the gdb-binaries group as seen from the current group. *)
Definition inGdbBinariesGroup (settings : QSettings) (k : string) : Prop :=
  String.prefix (QSettings.groupPrefix settings +:+ gdbBinariesSettingsGroupC +:+ "/") k = true.

(** The key, relative to the current group, under which an item stores its
    value: its group and its key in normal form; [None] for an item that is
    not persistent. *)
Definition persistentKey (a : SavedAction) : option string :=
  if QString.isEmpty (settingsGroup a) || QString.isEmpty (settingsKey a) then None
  else
    let group := QSettings.normalizedKey (settingsGroup a) in
    Some ((if QString.isEmpty group then "" else group +:+ "/")
          +:+ QSettings.normalizedKey (settingsKey a)).

(** An item that stores nothing inside the gdb-binaries group: it is not
    persistent, or the key it stores its value under does not lie below
    GdbBinaries21. *)
Definition outsideGdbBinaries (a : SavedAction) : Prop :=
  ∀ r, persistentKey a = Some r →
       String.prefix (gdbBinariesSettingsGroupC +:+ "/") r = false.

(** The input a map must be for the flat list to represent it: binaries are
    non-empty and free of commas, toolchains are [int]s, and no toolchain
    occurs in two entries. *)
Definition representable (m : GdbBinaryToolChainMap) : Prop :=
  Forall (fun it => it.1 ≠ "" ∧ QString.contains it.1 "," = false ∧ QString.isInt it.2 = true) m
  ∧ NoDup m.*2.

(** The entries of [m] inserted one by one, in iteration order, into an
    empty map.  A [QMultiMap] puts a new entry before the older ones of its
    key, so this is [m] with the entries of each key in reverse order. *)
Definition reinserted (m : GdbBinaryToolChainMap) : GdbBinaryToolChainMap :=
  foldl (fun acc it => QMultiMap.insert it.1 it.2 acc) [] m.

(** The keys grow strictly along the entries: one toolchain per binary. *)
Definition strictKeys (m : GdbBinaryToolChainMap) : Prop :=
  ∀ (i j : nat) a b, (i < j)%nat → m !! i = Some a → m !! j = Some b →
    String.ltb a.1 b.1 = true.

(** The state [(lastBinary, settingsList)] of the iterator loop of
    [writeSettings] after the entries [p]: every line lets the reading loop
    go on, reading the lines inserts the entries of [p] in their order, and
    the last line belongs to [lastBinary]. *)
Definition listInv (lastBinary : string) (settingsList : list string)
    (p : GdbBinaryToolChainMap) : Prop :=
  Forall (fun l => goodLine l = true) settingsList
  ∧ decodeLines [] settingsList = reinserted p
  ∧ ((settingsList = [] ∧ lastBinary = "")
     ∨ ∃ l0 ln toks, settingsList = l0 ++ [ln] ∧ QString.split "," ln = lastBinary :: toks).

(** ** Sample inputs *)

(** A store holding the flat list of the source comment,
    ("binary1=gdb,1,2", "binary2=symbian_gdb,3,4"), and its terminator. *)
Definition sampleSettings : QSettings :=
  mkQSettings []
    (<["GdbBinaries21/GdbBinary1" := QVariant_String "gdb,1,2"]>
       (<["GdbBinaries21/GdbBinary2" := QVariant_String "symbian_gdb,3,4"]>
          (<["GdbBinaries21/GdbBinary3" := QVariant_String ""]> ∅))).

(** The map that list stands for, in iteration order. *)
Definition sampleMap : GdbBinaryToolChainMap :=
  [("gdb", 2); ("gdb", 1); ("symbian_gdb", 4); ("symbian_gdb", 3)].

(** A registry holding only a gdb-binary map. *)
Definition withMap (m : GdbBinaryToolChainMap) : DebuggerSettings :=
  mkDebuggerSettings ∅ m.

(** The registry of a Unix build with the sample map in memory. *)
Definition sampleRegistry : DebuggerSettings :=
  mkDebuggerSettings (m_items (@instance unixBuild None).1) sampleMap.

(** The item [instance] registers for [UseMessageBoxForSignals]. *)
Definition sampleItem : SavedAction :=
  mkSavedAction "DebugMode" "UseMessageBoxForSignals"
                (QVariant_Bool true) (QVariant_Bool true) true.

(** ** Further functions of the source and notions for their properties *)

(** The body of the [foreach] of [DebuggerSettings::dump]: the text the
    stream has received so far, and one item. *)
Definition dumpItem (out : string) (a : SavedAction) : string :=
  let key := settingsKey a in
  if negb (QString.isEmpty key) then
    let current := QVariant.toString (value a) in
    let default_ := QVariant.toString (defaultValue a) in
    let out := out +:+ String "010" "" +:+ key +:+ ": " +:+ current
                   +:+ "  (default: " +:+ default_ +:+ ")" in
    if negb (String.eqb current default_) then out +:+ "  ***" else out
  else out.

(** [DebuggerSettings::dump]; the items are visited as in [writeItems]. *)
Definition dump (d : DebuggerSettings) : string :=
  foldl dumpItem "Debugger settings: " (snd <$> map_to_list (m_items d)).

(** The condition of the second [QTC_ASSERT] of [insertItem]. *)
Definition hasDefaultValue (a : SavedAction) : bool :=
  QString.isEmpty (settingsKey a) || QVariant.isValid (defaultValue a).

(** A run of [insertItem] calls, as in [instance]. *)
Definition insertItems (l : list (Z * SavedAction)) (d : DebuggerSettings) : DebuggerSettings :=
  foldl (fun d ca => insertItem ca.1 ca.2 d) d l.

(** The action of the first pair of [l] that carries [code]. *)
Fixpoint firstBinding (code : Z) (l : list (Z * SavedAction)) : option SavedAction :=
  match l with
  | [] => None
  | (c, a) :: l' => if bool_decide (c = code) then Some a else firstBinding code l'
  end.

#[export] Instance DebuggerActionCode_eq_dec : EqDecision DebuggerActionCode.
Proof. solve_decision. Defined.

(** No stored value starts with a comma: no line has an empty binary. *)
Definition noLeadingComma (settings : QSettings) : Prop :=
  ∀ k v, values settings !! k = Some v → String.prefix "," (QVariant.toString v) = false.

(** The toolchain constants of the build are pairwise different [int]s. *)
Definition toolChainsDistinct `{Build} : Prop :=
  NoDup [GCC; LINUX_ICC; OTHER; UNKNOWN]
  ∧ Forall (fun v => QString.isInt v = true) [GCC; LINUX_ICC; OTHER; UNKNOWN].


(** The sample store with a stale entry left behind its terminator. *)
Definition staleSettings : QSettings :=
  mkQSettings [] (<["GdbBinaries21/GdbBinary4" := QVariant_String "lldb,9"]> (values sampleSettings)).

(** A store in which two lines configure toolchain 1. *)
Definition conflictSettings : QSettings :=
  mkQSettings []
    (<["GdbBinaries21/GdbBinary1" := QVariant_String "gdb,1"]>
       (<["GdbBinaries21/GdbBinary2" := QVariant_String "other_gdb,1,2"]> ∅)).


(** A store whose only line has an empty binary. *)
Definition emptyBinarySettings : QSettings :=
  mkQSettings [] (<["GdbBinaries21/GdbBinary1" := QVariant_String ",1,1"]> ∅).





(** A persistent item whose settings group is the gdb-binaries group. *)
Definition extraItem : SavedAction :=
  mkSavedAction "GdbBinaries21" "Extra" (QVariant_String "") (QVariant_String "x") false.

(** A registry holding that item under code 1000 and the sample map. *)
Definition extraRegistry : DebuggerSettings :=
  insertItem 1000 extraItem (withMap sampleMap).

(** * Properties *)

(** ** Strings and numerals *)

Section QStringFacts.

Lemma append_assoc (a b c : string) : (a +:+ b) +:+ c = a +:+ (b +:+ c).
Proof. induction a as [|x a IH]; [done|]. unfold String.app in *. simpl. by rewrite IH. Qed.

Lemma append_nil_r (a : string) : a +:+ "" = a.
Proof. induction a as [|x a IH]; [done|]. unfold String.app in *. simpl. by rewrite IH. Qed.

Lemma append_cons (x : ascii) (a b : string) : String x a +:+ b = String x (a +:+ b).
Proof. done. Qed.

Lemma isEmpty_true (s : string) : QString.isEmpty s = true ↔ s = "".
Proof. destruct s; simpl; split; congruence. Qed.

Lemma isEmpty_false (s : string) : QString.isEmpty s = false ↔ s ≠ "".
Proof. destruct s; simpl; split; congruence. Qed.

Lemma isEmpty_append (a b : string) :
  QString.isEmpty (a +:+ b) = QString.isEmpty a && QString.isEmpty b.
Proof. by destruct a. Qed.

Lemma contains_append (a b : string) (c : ascii) :
  QString.contains (a +:+ b) c = QString.contains a c || QString.contains b c.
Proof.
  induction a as [|x a IH]; [done|].
  rewrite append_cons. simpl. rewrite IH. by rewrite orb_assoc.
Qed.

Lemma split_nonempty (sep : ascii) (s : string) : QString.split sep s ≠ [].
Proof.
  destruct s as [|a s]; simpl; [done|].
  destruct (Ascii.eqb a sep); [done|]. by destruct (QString.split sep s).
Qed.

(** A string without the separator is its own single token. *)
Lemma split_without (sep : ascii) (s : string) :
  QString.contains s sep = false → QString.split sep s = [s].
Proof.
  induction s as [|a s IH]; simpl; [done|].
  intros [Ha Hs]%orb_false_elim. rewrite Ha, (IH Hs). done.
Qed.

(** Splitting distributes over a separator in the middle. *)
Lemma split_append (sep : ascii) (s t : string) :
  QString.split sep (s +:+ String sep t) = QString.split sep s ++ QString.split sep t.
Proof.
  induction s as [|a s IH].
  - change ("" +:+ String sep t) with (String sep t). simpl.
    by rewrite Ascii.eqb_refl.
  - rewrite append_cons. simpl. rewrite IH.
    destruct (Ascii.eqb a sep); [done|].
    pose proof (split_nonempty sep s). by destruct (QString.split sep s).
Qed.

Lemma contains_cons (a : ascii) (s : string) (c : ascii) :
  QString.contains (String a s) c = Ascii.eqb a c || QString.contains s c.
Proof. done. Qed.

Lemma uint_digits (d : Decimal.uint) (c : ascii) :
  QString.contains (NilEmpty.string_of_uint d) c = true →
  (48 <= N_of_ascii c <= 57)%N.
Proof.
  induction d; cbn [NilEmpty.string_of_uint]; [done|..]; rewrite contains_cons;
    (intros [Hc%Ascii.eqb_eq | ?]%orb_true_iff; [subst c; vm_compute; split; discriminate | auto]).
Qed.

Lemma number_digits (n : Z) (c : ascii) :
  QString.contains (QString.number n) c = true →
  c = "-"%char ∨ (48 <= N_of_ascii c <= 57)%N.
Proof.
  unfold QString.number.
  assert (Hu : ∀ d, QString.contains (NilZero.string_of_uint d) c = true →
                    (48 <= N_of_ascii c <= 57)%N).
  { intros d. destruct d; try apply (uint_digits _ c).
    cbn [NilZero.string_of_uint]. rewrite contains_cons.
    intros [Hc%Ascii.eqb_eq | ?]%orb_true_iff; [|done].
    subst c. vm_compute. split; discriminate. }
  destruct (Z.to_int n) as [d|d]; cbn [NilZero.string_of_int].
  - right. by apply (Hu d).
  - rewrite contains_cons.
    intros [Hc%Ascii.eqb_eq | ?]%orb_true_iff; [by left | right; by apply (Hu d)].
Qed.

Lemma number_without_comma (n : Z) : QString.contains (QString.number n) "," = false.
Proof.
  destruct (QString.contains (QString.number n) ",") eqn:E; [|done].
  apply number_digits in E as [E|E]; [discriminate|].
  vm_compute in E. destruct E as [E _]. by destruct E.
Qed.

Lemma to_int_proper (n : Z) : Z.to_int n ≠ Decimal.Pos Decimal.Nil ∧ Z.to_int n ≠ Decimal.Neg Decimal.Nil.
Proof.
  destruct n as [|p|p]; simpl; split; try discriminate;
    intros [=E]; by apply DecimalPos.Unsigned.to_uint_nonnil in E.
Qed.

Lemma number_parse (n : Z) :
  NilZero.int_of_string (QString.number n) = Some (Z.to_int n).
Proof. unfold QString.number. destruct (to_int_proper n). by apply NilZero.isi. Qed.

Lemma number_nonempty (n : Z) : QString.number n ≠ "".
Proof. intros E. pose proof (number_parse n) as H. by rewrite E in H. Qed.

Lemma number_inj : Inj (=) (=) QString.number.
Proof.
  intros n n' E. apply DecimalZ.to_int_inj.
  pose proof (number_parse n) as H. rewrite E, number_parse in H. congruence.
Qed.

(** The characters of a numeral are neither white space, nor a plus sign,
    nor a slash. *)
Lemma number_plain (n : Z) (c : ascii) :
  QString.contains (QString.number n) c = true →
  Ascii.is_space c = false ∧ Ascii.eqb c "+" = false ∧ Ascii.eqb c "/" = false.
Proof.
  intros [-> | H]%number_digits; [done|].
  destruct c as [[] [] [] [] [] [] [] []]; try done;
    vm_compute in H; destruct H as [H1 H2]; by (destruct H1 || destruct H2).
Qed.

Lemma trimmed_plain (s : string) :
  (∀ c, QString.contains s c = true → Ascii.is_space c = false) → QString.trimmed s = s.
Proof.
  intros Hs. unfold QString.trimmed.
  assert (Hl : QString.trimmedLeft s = s).
  { destruct s as [|a s]; [done|]. cbn [QString.trimmedLeft].
    rewrite (Hs a); [done|]. rewrite contains_cons. by rewrite Ascii.eqb_refl. }
  rewrite Hl. clear Hl. induction s as [|a s IH]; [done|].
  cbn [QString.trimmedRight].
  rewrite (Hs a) by (rewrite contains_cons; by rewrite Ascii.eqb_refl).
  rewrite IH; [done|]. intros c Hc. apply Hs. rewrite contains_cons, Hc. apply orb_true_r.
Qed.

(** [toInt] undoes [number] on every [int]. *)
Lemma toInt_number (n : Z) : QString.isInt n = true → QString.toInt (QString.number n) = n.
Proof.
  intros Hn. unfold QString.toInt.
  rewrite trimmed_plain by (intros c Hc; by apply (number_plain n c)).
  pose proof (number_parse n) as Hp. pose proof (number_plain n) as Hc.
  destruct (QString.number n) as [|a t]; [done|].
  destruct (Hc a) as (_ & -> & _); [rewrite contains_cons; by rewrite Ascii.eqb_refl|].
  rewrite Hp, DecimalZ.of_to. by rewrite Hn.
Qed.

End QStringFacts.

(** ** The multimap *)

Section QMultiMapFacts.

Lemma insert_perm (k : string) (v : Z) (m : list (string * Z)) :
  QMultiMap.insert k v m ≡ₚ (k, v) :: m.
Proof.
  induction m as [|[k' v'] m IH]; simpl; [done|].
  destruct (String.ltb k' k); [|done].
  rewrite IH. apply Permutation_swap.
Qed.

Lemma key_absent (v : Z) (m : list (string * Z)) :
  v ∉ m.*2 → QMultiMap.key v m = "".
Proof.
  induction m as [|[k' v'] m IH]; simpl; [done|].
  intros Hv. apply not_elem_of_cons in Hv as [Hne Hv].
  destruct (Z.eqb_spec v' v); [congruence|auto].
Qed.

(** A token that is the numeral of a fresh toolchain adds one entry. *)
Lemma insertToolChain_fresh (binary : string) (m : list (string * Z)) (v : Z) :
  QString.isInt v = true → v ∉ m.*2 →
  insertToolChain binary m (QString.number v) = QMultiMap.insert binary v m.
Proof.
  intros Hint Hv. unfold insertToolChain.
  by rewrite (toInt_number _ Hint), (key_absent _ _ Hv).
Qed.

Lemma reinserted_snoc (p : list (string * Z)) (k : string) (v : Z) :
  reinserted (p ++ [(k, v)]) = QMultiMap.insert k v (reinserted p).
Proof. unfold reinserted. by rewrite foldl_app. Qed.

Lemma reinserted_perm (m : list (string * Z)) : reinserted m ≡ₚ m.
Proof.
  induction m as [|[k v] m IH] using rev_ind; [done|].
  rewrite reinserted_snoc, insert_perm, IH. by rewrite (Permutation_app_comm m).
Qed.

(** Inserting a key above all present keys appends the entry. *)
Lemma insert_above (k : string) (v : Z) (m : list (string * Z)) :
  Forall (fun it => String.ltb it.1 k = true) m →
  QMultiMap.insert k v m = m ++ [(k, v)].
Proof.
  induction 1 as [|[k' v'] m Hk Hm IH]; simpl; [done|].
  simpl in Hk. by rewrite Hk, IH.
Qed.

(** With one toolchain per binary, re-inserting rebuilds the same map. *)
Lemma reinserted_strictKeys (m : list (string * Z)) :
  strictKeys m → reinserted m = m.
Proof.
  induction m as [|[k v] m IH] using rev_ind; intros Hs; [done|].
  rewrite reinserted_snoc, IH.
  - apply insert_above, Forall_forall. intros it [i Hi]%list_elem_of_lookup.
    apply (Hs i (length m) it (k, v)).
    + by apply lookup_lt_Some in Hi.
    + by apply lookup_app_l_Some.
    + by rewrite list_lookup_middle.
  - intros i j a b Hij Ha Hb.
    apply (Hs i j a b Hij); by apply lookup_app_l_Some.
Qed.

Lemma decodeLines_snoc (m : list (string * Z)) (lines : list string) (line : string) :
  decodeLines m (lines ++ [line]) = decodeLine (decodeLines m lines) line.
Proof. unfold decodeLines. by rewrite foldl_app. Qed.

End QMultiMapFacts.

(** ** Building the flat list *)

Section SettingsListFacts.

Lemma back_append_snoc (l : list string) (x t : string) :
  QStringList.back_append (l ++ [x]) t = Some (l ++ [x +:+ t]).
Proof.
  unfold QStringList.back_append. rewrite last_snoc, length_app. simpl.
  replace (length l + 1 - 1)%nat with (length l) by lia.
  by rewrite take_app_length.
Qed.

(** The line after [",v"] was appended: one more token. *)
Lemma split_appended (ln : string) (v : Z) :
  QString.split "," ((ln +:+ ",") +:+ QString.number v)
  = QString.split "," ln ++ [QString.number v].
Proof.
  rewrite append_assoc.
  change ("," +:+ QString.number v) with (String "," (QString.number v)).
  rewrite split_append. by rewrite (split_without _ _ (number_without_comma v)).
Qed.

Lemma goodLine_appended (ln : string) (v : Z) :
  goodLine ((ln +:+ ",") +:+ QString.number v) = true.
Proof.
  unfold goodLine. rewrite split_appended, length_app. simpl.
  pose proof (split_nonempty "," ln) as Hne.
  destruct (QString.split "," ln) as [|t ts]; [done|]. simpl.
  rewrite !isEmpty_append. simpl. rewrite andb_false_r. simpl.
  apply negb_true_iff, Nat.ltb_ge. lia.
Qed.

Lemma appendToolChain_step (lastBinary : string) (settingsList : list string)
    (p : list (string * Z)) (k : string) (v : Z) :
  listInv lastBinary settingsList p →
  k ≠ "" → QString.contains k "," = false → QString.isInt v = true → v ∉ p.*2 →
  ∃ settingsList',
    appendToolChain (lastBinary, settingsList) (k, v) = Some (k, settingsList')
    ∧ listInv k settingsList' (p ++ [(k, v)]).
Proof.
  intros (Hgood & Hdec & Hlast) Hk Hcomma Hint Hv.
  assert (Hfresh : v ∉ (decodeLines [] settingsList).*2)
    by by rewrite Hdec, reinserted_perm.
  unfold appendToolChain. cbn [fst snd].
  destruct (String.eqb_spec k lastBinary) as [<-|Hne]; cbn [negb].
  - destruct Hlast as [[_ ?]|(l0 & ln & toks & -> & Hsplit)]; [done|].
    rewrite back_append_snoc. cbn [mbind option_bind].
    rewrite back_append_snoc. cbn [mbind option_bind].
    eexists. split; [done|]. split; [|split].
    + apply Forall_app in Hgood as [Hgood _].
      apply Forall_app. split; [done|]. constructor; [|done].
      apply goodLine_appended.
    + rewrite decodeLines_snoc in Hdec, Hfresh. rewrite decodeLines_snoc.
      unfold decodeLine in *. rewrite split_appended, Hsplit in *. cbn [app].
      rewrite foldl_app. cbn [foldl].
      rewrite insertToolChain_fresh by done. by rewrite Hdec, reinserted_snoc.
    + right. exists l0, ((ln +:+ ",") +:+ QString.number v), (toks ++ [QString.number v]).
      split; [done|]. by rewrite split_appended, Hsplit.
  - unfold QStringList.push_back.
    rewrite back_append_snoc. cbn [mbind option_bind].
    rewrite back_append_snoc. cbn [mbind option_bind].
    assert (Hsplit : QString.split "," ((k +:+ ",") +:+ QString.number v)
                     = [k; QString.number v]).
    { by rewrite split_appended, (split_without _ _ Hcomma). }
    eexists. split; [done|]. split; [|split].
    + apply Forall_app. split; [done|]. constructor; [|done].
      apply goodLine_appended.
    + rewrite decodeLines_snoc. unfold decodeLine. rewrite Hsplit. cbn [foldl].
      rewrite insertToolChain_fresh by done. by rewrite Hdec, reinserted_snoc.
    + right. by exists settingsList, ((k +:+ ",") +:+ QString.number v), [QString.number v].
Qed.

(** The iterator loop of [writeSettings] succeeds on a representable map,
    and its lines decode to the entries of the map. *)
Lemma buildSettingsList_inv (m : list (string * Z)) :
  ∀ lastBinary settingsList p,
    listInv lastBinary settingsList p →
    Forall (fun it => it.1 ≠ "" ∧ QString.contains it.1 "," = false
                      ∧ QString.isInt it.2 = true) m →
    NoDup (p ++ m).*2 →
    ∃ lastBinary' settingsList',
      buildSettingsList (lastBinary, settingsList) m = Some (lastBinary', settingsList')
      ∧ listInv lastBinary' settingsList' (p ++ m).
Proof.
  induction m as [|[k v] m IH]; intros lastBinary settingsList p Hinv Hok Hnd.
  - exists lastBinary, settingsList. by rewrite app_nil_r.
  - apply Forall_cons in Hok as [(Hk & Hcomma & Hint) Hok]. cbn [fst snd] in *.
    assert (Hv : v ∉ p.*2).
    { rewrite fmap_app, fmap_cons in Hnd. apply NoDup_app in Hnd as (_ & Hnd & _).
      intros Hin. apply (Hnd _ Hin). left. }
    destruct (appendToolChain_step _ _ _ k v Hinv Hk Hcomma Hint Hv)
      as (settingsList' & Hstep & Hinv').
    cbn [buildSettingsList]. rewrite Hstep. cbn [mbind option_bind].
    replace (p ++ (k, v) :: m) with ((p ++ [(k, v)]) ++ m) in * by by rewrite <- app_assoc.
    by apply IH.
Qed.

Lemma buildSettingsList_representable (m : list (string * Z)) :
  representable m →
  ∃ lastBinary settingsList,
    buildSettingsList ("", []) m = Some (lastBinary, settingsList)
    ∧ Forall (fun l => goodLine l = true) settingsList
    ∧ decodeLines [] settingsList = reinserted m.
Proof.
  intros [Hok Hnd].
  destruct (buildSettingsList_inv m "" [] []) as (lb & sl & Hb & Hgood & Hdec & _);
    [|done|done|by exists lb, sl].
  split; [done|]. split; [done|]. by left.
Qed.

End SettingsListFacts.

(** ** The settings store *)

Section QSettingsFacts.

Lemma concat_app (sep : string) (l1 l2 : list string) :
  l1 ≠ [] → l2 ≠ [] →
  String.concat sep (l1 ++ l2) = String.concat sep l1 +:+ sep +:+ String.concat sep l2.
Proof.
  intros H1 H2. induction l1 as [|x l1 IH]; [done|].
  destruct l1 as [|y l1].
  - destruct l2 as [|z l2]; [done|]. done.
  - change (String.concat sep ((x :: y :: l1) ++ l2))
      with (x +:+ sep +:+ String.concat sep ((y :: l1) ++ l2)).
    rewrite IH by done.
    change (String.concat sep (x :: y :: l1)) with (x +:+ sep +:+ String.concat sep (y :: l1)).
    by rewrite !append_assoc.
Qed.

Lemma concat_nonempty (sep : string) (l : list string) :
  l ≠ [] → Forall (fun t => t ≠ "") l → String.concat sep l ≠ "".
Proof.
  intros Hl Hne. destruct l as [|x l]; [done|].
  apply Forall_cons in Hne as [Hx _]. destruct x as [|a x]; [done|].
  by destruct l.
Qed.

(** A key is empty in normal form exactly when it has no section. *)
Lemma normalizedKey_empty (key : string) :
  QSettings.normalizedKey key = "" ↔ filter (fun t => t ≠ "") (QString.split "/" key) = [].
Proof.
  unfold QSettings.normalizedKey. split; [|by intros ->].
  intros E. destruct (filter _ _) as [|x l] eqn:El; [done|].
  exfalso. apply (concat_nonempty "/" (x :: l)); [done| |done].
  rewrite <- El. apply Forall_forall. by intros t [Ht _]%list_elem_of_filter.
Qed.

(** A non-empty key without a slash is in normal form. *)
Lemma normalizedKey_plain (key : string) :
  QString.contains key "/" = false → key ≠ "" → QSettings.normalizedKey key = key.
Proof.
  intros Hc Hne. unfold QSettings.normalizedKey.
  rewrite split_without by done. by rewrite filter_cons_True.
Qed.

(** The normal form of two keys joined by a slash. *)
Lemma normalizedKey_append (a b : string) :
  QSettings.normalizedKey a ≠ "" → QSettings.normalizedKey b ≠ "" →
  QSettings.normalizedKey (a +:+ "/" +:+ b)
  = QSettings.normalizedKey a +:+ "/" +:+ QSettings.normalizedKey b.
Proof.
  intros Ha Hb. unfold QSettings.normalizedKey.
  change ("/" +:+ b) with (String "/" b).
  rewrite split_append, filter_app. apply concat_app.
  - intros E. by apply Ha, normalizedKey_empty.
  - intros E. by apply Hb, normalizedKey_empty.
Qed.

(** The numbered keys of the sources are in normal form. *)
Lemma normalizedKey_numbered (root : string) (n : Z) :
  QString.contains root "/" = false →
  QSettings.normalizedKey (root +:+ QString.number n) = root +:+ QString.number n.
Proof.
  intros Hroot. apply normalizedKey_plain.
  - rewrite contains_append, Hroot. simpl.
    destruct (QString.contains (QString.number n) "/") eqn:E; [|done].
    by apply number_plain in E as (_ & _ & ?).
  - intros E. apply (f_equal QString.isEmpty) in E. rewrite isEmpty_append in E.
    pose proof (number_nonempty n) as Hn. apply isEmpty_false in Hn.
    rewrite Hn, andb_false_r in E. done.
Qed.

Lemma normalizedKey_gdbBinaryKeyRoot (n : Z) :
  QSettings.normalizedKey (gdbBinaryKeyRoot +:+ QString.number n)
  = gdbBinaryKeyRoot +:+ QString.number n.
Proof.
  unfold gdbBinaryKeyRoot. rewrite !append_assoc.
  rewrite normalizedKey_append.
  - by rewrite normalizedKey_numbered.
  - done.
  - rewrite normalizedKey_numbered by done.
    intros E. apply (f_equal QString.isEmpty) in E. by rewrite isEmpty_append in E.
Qed.

Lemma groupPrefix_beginGroup (q : QSettings) (g : string) :
  QSettings.normalizedKey g ≠ "" →
  QSettings.groupPrefix (QSettings.beginGroup q g)
  = QSettings.groupPrefix q +:+ QSettings.normalizedKey g +:+ "/".
Proof.
  intros Hg. unfold QSettings.groupPrefix. simpl.
  by destruct (QSettings.normalizedKey g).
Qed.

Lemma actualKey_setValue (q : QSettings) (k : string) (v : QVariant) (k' : string) :
  QSettings.actualKey (QSettings.setValue q k v) k' = QSettings.actualKey q k'.
Proof. done. Qed.

Lemma gdbBinaryKey_inj (q : QSettings) (root : string) (a b : Z) :
  (∀ n, QSettings.normalizedKey (root +:+ QString.number n) = root +:+ QString.number n) →
  QSettings.actualKey q (root +:+ QString.number a)
  = QSettings.actualKey q (root +:+ QString.number b) → a = b.
Proof.
  unfold QSettings.actualKey. intros Hroot E. rewrite !Hroot in E.
  by apply number_inj, (String.app_inj root), (String.app_inj (QSettings.groupPrefix q)).
Qed.

Lemma writeSettingsList_stack (l : list string) :
  ∀ q i, groupStack (writeSettingsList q i l) = groupStack q.
Proof. induction l as [|s l IH]; intros q i; simpl; [done|]. by rewrite IH. Qed.

(** Keys other than the numbered ones keep their value. *)
Lemma writeSettingsList_other (l : list string) :
  ∀ q i K,
    (∀ j : nat, K ≠ QSettings.actualKey q
                      (debugModeGdbBinaryKeyC +:+ QString.number (i + 1 + Z.of_nat j))) →
    values (writeSettingsList q i l) !! K = values q !! K.
Proof.
  induction l as [|s l IH]; intros q i K HK; simpl; [done|].
  rewrite IH.
  - simpl. rewrite lookup_insert_ne; [done|].
    specialize (HK 0%nat). rewrite Z.add_0_r in HK. congruence.
  - intros j. rewrite actualKey_setValue.
    replace (i + 1 + 1 + Z.of_nat j) with (i + 1 + Z.of_nat (S j)) by lia. apply HK.
Qed.

(** Element [j] of the list is stored under the key numbered [i + 1 + j]. *)
Lemma writeSettingsList_lookup (l : list string) :
  ∀ q i (j : nat) x,
    l !! j = Some x →
    values (writeSettingsList q i l)
      !! QSettings.actualKey q (debugModeGdbBinaryKeyC +:+ QString.number (i + 1 + Z.of_nat j))
    = Some (QVariant_String x).
Proof.
  induction l as [|s l IH]; intros q i j x Hj; [done|].
  destruct j as [|j]; simpl in Hj |- *.
  - injection Hj as ->. rewrite writeSettingsList_other.
    + simpl. rewrite Z.add_0_r. apply lookup_insert_eq.
    + intros j E. rewrite actualKey_setValue in E.
      apply gdbBinaryKey_inj in E; [lia|]. intros n. by apply normalizedKey_numbered.
  - rewrite <- (actualKey_setValue q (debugModeGdbBinaryKeyC +:+ QString.number (i + 1))
                                    (QVariant_String s)).
    replace (i + 1 + Z.of_nat (S j)) with (i + 1 + 1 + Z.of_nat j) by lia.
    by apply IH.
Qed.

(** The key the reading loop uses for index [i], seen from inside the
    gdb-binaries group. *)
Lemma gdbBinaryKey_inside (q : QSettings) (i : Z) :
  QSettings.actualKey (QSettings.beginGroup q gdbBinariesSettingsGroupC)
                      (debugModeGdbBinaryKeyC +:+ QString.number i)
  = gdbBinaryKey q i.
Proof.
  unfold gdbBinaryKey, QSettings.actualKey.
  rewrite normalizedKey_gdbBinaryKeyRoot, normalizedKey_numbered by done.
  rewrite groupPrefix_beginGroup by done.
  unfold gdbBinaryKeyRoot. change (QSettings.normalizedKey gdbBinariesSettingsGroupC)
    with gdbBinariesSettingsGroupC. by rewrite !append_assoc.
Qed.

(** After the second half of [writeSettings] the flat list is exactly what
    the reading loop sees from index 1 on. *)
Lemma storedLines_written (q : QSettings) (l : list string) :
  let inside := QSettings.remove (QSettings.beginGroup q gdbBinariesSettingsGroupC) "" in
  let q' := QSettings.endGroup (writeSettingsList inside 0 l) in
  groupStack q' = groupStack q ∧ storedLines q' 1 l.
Proof.
  intros inside q'.
  assert (Hstack : groupStack inside = gdbBinariesSettingsGroupC :: groupStack q).
  { unfold inside, QSettings.remove. simpl.
    by destruct (QString.isEmpty _). }
  assert (Hq' : groupStack q' = groupStack q).
  { unfold q'. simpl. by rewrite writeSettingsList_stack, Hstack. }
  split; [done|]. intros j x Hj.
  pose proof (writeSettingsList_lookup l inside 0 j x Hj) as Hl.
  unfold gdbBinaryValue, QSettings.value.
  replace (QSettings.actualKey q' (gdbBinaryKeyRoot +:+ QString.number (1 + Z.of_nat j)))
    with (QSettings.actualKey inside
            (debugModeGdbBinaryKeyC +:+ QString.number (0 + 1 + Z.of_nat j))).
  - unfold q'. simpl. by rewrite Hl.
  - transitivity (gdbBinaryKey q (0 + 1 + Z.of_nat j)).
    + rewrite <- gdbBinaryKey_inside. unfold QSettings.actualKey, QSettings.groupPrefix.
      by rewrite Hstack.
    + unfold gdbBinaryKey, QSettings.actualKey, QSettings.groupPrefix. by rewrite Hq'.
Qed.

End QSettingsFacts.

(** ** The reading loop *)

Section LoopFacts.

Variable settings : QSettings.

Lemma gdbBinaryStops_goodLine (i : Z) :
  gdbBinaryStops settings i = negb (goodLine (gdbBinaryValue settings i)).
Proof. unfold gdbBinaryStops, goodLine. by rewrite negb_involutive. Qed.

(** The two equations of the loop. *)
Lemma gdbBinariesLoop_break (fuel : nat) (i : Z) (m : list (string * Z)) :
  gdbBinaryStops settings i = true →
  gdbBinariesLoop (S fuel) settings i m = Some (i, m).
Proof.
  unfold gdbBinaryStops. intros H. cbn [gdbBinariesLoop].
  destruct (QString.isEmpty _); [done|]. simpl in H. by rewrite H.
Qed.

Lemma gdbBinariesLoop_continue (fuel : nat) (i : Z) (m : list (string * Z)) :
  gdbBinaryStops settings i = false →
  gdbBinariesLoop (S fuel) settings i m
  = gdbBinariesLoop fuel settings (i + 1) (decodeLine m (gdbBinaryValue settings i)).
Proof.
  unfold gdbBinaryStops. intros [H1 H2]%orb_false_elim. cbn [gdbBinariesLoop].
  rewrite H1, H2. unfold decodeLine.
  destruct (QString.split "," (gdbBinaryValue settings i)); [done|done].
Qed.

(** More fuel does not change a result. *)
Lemma gdbBinariesLoop_mono (fuel : nat) :
  ∀ fuel' i m r, (fuel ≤ fuel')%nat →
    gdbBinariesLoop fuel settings i m = Some r →
    gdbBinariesLoop fuel' settings i m = Some r.
Proof.
  induction fuel as [|fuel IH]; intros fuel' i m r Hle H; [done|].
  destruct fuel' as [|fuel']; [lia|].
  destruct (gdbBinaryStops settings i) eqn:Hs.
  - rewrite gdbBinariesLoop_break in H |- * by done. done.
  - rewrite gdbBinariesLoop_continue in H |- * by done. apply IH; [lia|done].
Qed.

Lemma gdbBinariesLoop_agree (fuel fuel' : nat) (i : Z) (m : list (string * Z)) r r' :
  gdbBinariesLoop fuel settings i m = Some r →
  gdbBinariesLoop fuel' settings i m = Some r' → r = r'.
Proof.
  intros H H'.
  apply (gdbBinariesLoop_mono _ (fuel `max` fuel')%nat) in H; [|lia].
  apply (gdbBinariesLoop_mono _ (fuel `max` fuel')%nat) in H'; [|lia].
  congruence.
Qed.

(** Over good lines followed by a stop the loop decodes the lines and
    breaks right after them. *)
Lemma gdbBinariesLoop_lines (lines : list string) :
  ∀ i m fuel,
    storedLines settings i lines →
    Forall (fun l => goodLine l = true) lines →
    gdbBinaryStops settings (i + Z.of_nat (length lines)) = true →
    (length lines < fuel)%nat →
    gdbBinariesLoop fuel settings i m
    = Some (i + Z.of_nat (length lines), decodeLines m lines).
Proof.
  induction lines as [|x lines IH]; intros i m fuel Hst Hgood Hstop Hfuel;
    (destruct fuel as [|fuel]; [simpl in Hfuel; lia|]).
  - simpl in Hstop |- *. rewrite Z.add_0_r in *. by apply gdbBinariesLoop_break.
  - apply Forall_cons in Hgood as [Hx Hgood].
    assert (Hv : gdbBinaryValue settings i = x).
    { rewrite <- (Hst 0%nat x); [|done]. f_equal. simpl. lia. }
    rewrite gdbBinariesLoop_continue.
    2:{ rewrite gdbBinaryStops_goodLine, Hv, Hx. done. }
    rewrite Hv. cbn [length] in *.
    replace (i + Z.of_nat (S (length lines))) with (i + 1 + Z.of_nat (length lines)) in * by lia.
    apply IH; [|done|done|lia].
    intros j y Hj. replace (i + 1 + Z.of_nat j) with (i + Z.of_nat (S j)) by lia.
    by apply Hst.
Qed.

(** A loop that runs out of fuel has read a stored value at every index
    it visited. *)
Lemma gdbBinariesLoop_None (fuel : nat) :
  ∀ i m, gdbBinariesLoop fuel settings i m = None →
    ∀ j : nat, (j < fuel)%nat → is_Some (values settings !! gdbBinaryKey settings (i + Z.of_nat j)).
Proof.
  induction fuel as [|fuel IH]; intros i m H j Hj; [lia|].
  destruct (gdbBinaryStops settings i) eqn:Hs.
  { by rewrite gdbBinariesLoop_break in H. }
  rewrite gdbBinariesLoop_continue in H by done.
  destruct j as [|j].
  - rewrite Z.add_0_r.
    apply orb_false_elim in Hs as [Hs _].
    unfold gdbBinaryValue, QSettings.value in Hs. fold (gdbBinaryKey settings i) in Hs.
    destruct (values settings !! gdbBinaryKey settings i); [done|discriminate].
  - replace (i + Z.of_nat (S j)) with (i + 1 + Z.of_nat j) by lia.
    eapply IH; [done|lia].
Qed.

(** The loop always ends: each further iteration needs a further stored
    key, and the store is finite. *)
Lemma gdbBinariesLoop_total (i : Z) (m : list (string * Z)) :
  is_Some (gdbBinariesLoop (S (size (values settings))) settings i m).
Proof.
  destruct (gdbBinariesLoop _ settings i m) eqn:H; [done|exfalso].
  pose proof (gdbBinariesLoop_None _ _ _ H) as Hkeys.
  set (n := S (size (values settings))) in *.
  set (keys := (fun j : nat => gdbBinaryKey settings (i + Z.of_nat j)) <$> seq 0 n).
  assert (Hnd : NoDup keys).
  { apply NoDup_fmap_2; [|apply NoDup_seq].
    intros a b E. apply gdbBinaryKey_inj in E; [lia|]. apply normalizedKey_gdbBinaryKeyRoot. }
  assert (Hsub : (list_to_set keys : gset string) ⊆ dom (values settings)).
  { intros k [j [-> Hj%elem_of_seq]]%elem_of_list_to_set%list_elem_of_fmap.
    apply elem_of_dom, Hkeys. lia. }
  apply subseteq_size in Hsub.
  rewrite size_list_to_set, size_dom in Hsub by done.
  unfold keys in Hsub. rewrite length_fmap, length_seq in Hsub. lia.
Qed.

(** Below an index at which the loop would stop there is a first one. *)
Lemma first_stop (n : nat) :
  ∀ i, gdbBinaryStops settings (i + Z.of_nat n) = true →
    ∃ k : nat, (k ≤ n)%nat ∧ gdbBinaryStops settings (i + Z.of_nat k) = true
      ∧ ∀ j : nat, (j < k)%nat → gdbBinaryStops settings (i + Z.of_nat j) = false.
Proof.
  induction n as [|n IH]; intros i Hn.
  - exists 0%nat. split; [done|]. split; [done|]. lia.
  - destruct (gdbBinaryStops settings i) eqn:Hi.
    + exists 0%nat. rewrite Z.add_0_r. split; [lia|]. split; [done|]. lia.
    + destruct (IH (i + 1)) as (k & Hk & Hstop & Hbefore).
      { by replace (i + 1 + Z.of_nat n) with (i + Z.of_nat (S n)) by lia. }
      exists (S k). split; [lia|].
      replace (i + Z.of_nat (S k)) with (i + 1 + Z.of_nat k) by lia. split; [done|].
      intros [|j] Hj; [by rewrite Z.add_0_r|].
      replace (i + Z.of_nat (S j)) with (i + 1 + Z.of_nat j) by lia. apply Hbefore. lia.
Qed.

(** The loop breaks at the first index that stops it, whatever the fuel
    beyond the number of iterations. *)
Lemma gdbBinariesLoop_first (k : nat) :
  ∀ i m,
    gdbBinaryStops settings (i + Z.of_nat k) = true →
    (∀ j : nat, (j < k)%nat → gdbBinaryStops settings (i + Z.of_nat j) = false) →
    ∃ m', ∀ fuel, (k < fuel)%nat →
      gdbBinariesLoop fuel settings i m = Some (i + Z.of_nat k, m').
Proof.
  induction k as [|k IH]; intros i m Hstop Hbefore.
  - exists m. intros [|fuel] Hf; [lia|]. rewrite Z.add_0_r in *.
    by apply gdbBinariesLoop_break.
  - destruct (IH (i + 1) (decodeLine m (gdbBinaryValue settings i))) as [m' Hm'].
    + by replace (i + 1 + Z.of_nat k) with (i + Z.of_nat (S k)) by lia.
    + intros j Hj. replace (i + 1 + Z.of_nat j) with (i + Z.of_nat (S j)) by lia.
      apply Hbefore. lia.
    + exists m'. intros [|fuel] Hf; [lia|].
      rewrite gdbBinariesLoop_continue.
      * replace (i + Z.of_nat (S k)) with (i + 1 + Z.of_nat k) by lia. apply Hm'. lia.
      * specialize (Hbefore 0%nat). rewrite Z.add_0_r in Hbefore. apply Hbefore. lia.
Qed.

End LoopFacts.

(** ** Reading the map back *)

Section DecodeFacts.

Context `{Build}.

(** The bound built into [gdbBinaryToolChainMapFromSettings] never cuts
    the loop short: the function returns a map for every store. *)
Lemma gdbBinaryToolChainMapFromSettings_total (settings : QSettings) :
  is_Some (gdbBinaryToolChainMapFromSettings settings).
Proof.
  unfold gdbBinaryToolChainMapFromSettings.
  destruct (gdbBinariesLoop_total settings 1 []) as [[i m] ->]. done.
Qed.

(** Whatever fuel lets the loop finish gives the result of the function. *)
Lemma gdbBinaryToolChainMapFromSettings_fuel (settings : QSettings) (fuel : nat) i m :
  gdbBinariesLoop fuel settings 1 [] = Some (i, m) →
  gdbBinaryToolChainMapFromSettings settings
  = Some (if Q_OS_UNIX && QMultiMap.isEmpty m then linuxDefaults else m).
Proof.
  intros Hloop. unfold gdbBinaryToolChainMapFromSettings.
  destruct (gdbBinariesLoop_total settings 1 []) as [[i' m'] Htot]. rewrite Htot.
  pose proof (gdbBinariesLoop_agree _ _ _ _ _ _ _ Hloop Htot) as [= -> ->]. done.
Qed.

(** A store that holds good lines and then an empty value decodes to what
    the lines say. *)
Lemma gdbBinaryToolChainMapFromSettings_lines (settings : QSettings) (lines : list string) :
  storedLines settings 1 (lines ++ [""]) →
  Forall (fun l => goodLine l = true) lines →
  decodeLines [] lines ≠ [] →
  gdbBinaryToolChainMapFromSettings settings = Some (decodeLines [] lines).
Proof.
  intros Hst Hgood Hne.
  assert (Hstop : gdbBinaryStops settings (1 + Z.of_nat (length lines)) = true).
  { rewrite gdbBinaryStops_goodLine.
    rewrite (Hst (length lines) ""); [done|].
    by rewrite lookup_app_r, Nat.sub_diag. }
  assert (Hst' : storedLines settings 1 lines).
  { intros j x Hj. apply Hst. by apply lookup_app_l_Some. }
  rewrite (gdbBinaryToolChainMapFromSettings_fuel settings (S (length lines))
             (1 + Z.of_nat (length lines)) (decodeLines [] lines)).
  - destruct (decodeLines [] lines); [done|]. by rewrite andb_false_r.
  - apply gdbBinariesLoop_lines; [done|done|done|lia].
Qed.

(** Reading depends on the open groups and on the numbered values only. *)
Lemma gdbBinariesLoop_ext (settings settings' : QSettings) (fuel : nat) :
  (∀ i, gdbBinaryValue settings i = gdbBinaryValue settings' i) →
  ∀ i m, gdbBinariesLoop fuel settings i m = gdbBinariesLoop fuel settings' i m.
Proof.
  intros Hv. induction fuel as [|fuel IH]; intros i m; [done|].
  cbn [gdbBinariesLoop]. rewrite <- (Hv i).
  destruct (QString.isEmpty _); [done|].
  destruct (_ <? _)%nat; [done|].
  destruct (QString.split _ _); [done|]. apply IH.
Qed.

Lemma gdbBinaryToolChainMapFromSettings_ext (settings settings' : QSettings) :
  (∀ i, gdbBinaryValue settings i = gdbBinaryValue settings' i) →
  gdbBinaryToolChainMapFromSettings settings = gdbBinaryToolChainMapFromSettings settings'.
Proof.
  intros Hv.
  destruct (gdbBinariesLoop_total settings 1 []) as [[i m] Hloop].
  rewrite (gdbBinaryToolChainMapFromSettings_fuel settings _ _ _ Hloop).
  rewrite (gdbBinariesLoop_ext _ settings' _ Hv) in Hloop.
  by rewrite (gdbBinaryToolChainMapFromSettings_fuel settings' _ _ _ Hloop).
Qed.

End DecodeFacts.

(** ** Persistence of the gdb-binary map *)

Section Persistence.

Context `{Build}.

(** C1 (amended).  Take a non-empty gdb-binary-to-toolchain map whose
    binaries are non-empty and contain no comma, whose toolchains are
    [int]s, and in which no toolchain occurs in two entries.  Then
    [writeSettings] succeeds on every store, and
    [gdbBinaryToolChainMapFromSettings] decodes the written store to a map
    with exactly the entries of the original one.  The decoded map is the
    original one when the store already held it, and otherwise its entries
    inserted anew in iteration order, which visits the toolchains of one
    binary in reverse; with one toolchain per binary it is the original map
    in both cases. *)
Theorem writeSettings_roundtrip (settings : QSettings) (d : DebuggerSettings) :
  m_gdbBinaryToolChainMap d ≠ [] →
  representable (m_gdbBinaryToolChainMap d) →
  ∃ settings' m',
    writeSettings settings d = Some settings'
    ∧ gdbBinaryToolChainMapFromSettings settings' = Some m'
    ∧ m' ≡ₚ m_gdbBinaryToolChainMap d
    ∧ (m' = m_gdbBinaryToolChainMap d ∨ m' = reinserted (m_gdbBinaryToolChainMap d))
    ∧ (strictKeys (m_gdbBinaryToolChainMap d) → m' = m_gdbBinaryToolChainMap d).
Proof.
  intros Hne Hrep. unfold writeSettings.
  destruct (gdbBinaryToolChainMapFromSettings_total (writeItems settings d)) as [stored Hstored].
  rewrite Hstored. cbn [mbind option_bind].
  case_bool_decide as Heq.
  - exists (writeItems settings d), stored. rewrite Heq. repeat split; auto.
  - destruct (buildSettingsList_representable _ Hrep) as (lb & sl & Hb & Hgood & Hdec).
    rewrite Hb. cbn [mbind option_bind snd].
    destruct (storedLines_written (writeItems settings d) (QStringList.push_back sl ""))
      as [_ Hlines].
    eexists _, (reinserted (m_gdbBinaryToolChainMap d)). split; [done|]. split; [|split; [|split]].
    + rewrite <- Hdec. apply gdbBinaryToolChainMapFromSettings_lines; [done|done|].
      rewrite Hdec. intros E. pose proof (reinserted_perm (m_gdbBinaryToolChainMap d)) as Hp.
      rewrite E in Hp. by apply Permutation_nil_l in Hp.
    + apply reinserted_perm.
    + by right.
    + apply reinserted_strictKeys.
Qed.

End Persistence.

(** Witness of [writeSettings_roundtrip]: the sample map written into an
    empty store on a Unix build. *)
Lemma writeSettings_roundtrip_witness :
  ∃ settings' m',
    @writeSettings unixBuild emptySettings (withMap sampleMap) = Some settings'
    ∧ @gdbBinaryToolChainMapFromSettings unixBuild settings' = Some m'
    ∧ m' ≡ₚ sampleMap
    ∧ (m' = sampleMap ∨ m' = reinserted sampleMap)
    ∧ (strictKeys sampleMap → m' = sampleMap).
Proof.
  apply (@writeSettings_roundtrip unixBuild emptySettings (withMap sampleMap)).
  - discriminate.
  - split.
    + repeat constructor; discriminate.
    + apply (bool_decide_unpack _). vm_compute. exact I.
Defined.

(** C1 fails as stated: a binary whose name contains a comma is split
    apart when the store is read back.  The one-entry map {"a,b" -> 1}
    comes back as {"a" -> 1, "a" -> 0}. *)
Lemma writeSettings_roundtrip_comma :
  (∀ it, it ∈ [("a,b", 1)] → QString.isInt it.2 = true)
  ∧ NoDup [("a,b", 1)].*2
  ∧ ∃ settings' m',
      @writeSettings unixBuild emptySettings (withMap [("a,b", 1)]) = Some settings'
      ∧ @gdbBinaryToolChainMapFromSettings unixBuild settings' = Some m'
      ∧ m' = [("a", 1); ("a", 0)]
      ∧ ¬ m' ≡ₚ [("a,b", 1)].
Proof.
  split; [|split].
  - intros it ->%list_elem_of_singleton. done.
  - apply (bool_decide_unpack _). vm_compute. exact I.
  - eexists _, _. split; [vm_compute; reflexivity|].
    split; [vm_compute; reflexivity|]. split; [done|].
    intros Hp. apply Permutation_length in Hp. discriminate.
Qed.

Section Termination.

Context `{Build}.

(** C4.  If some index [i >= 1] has an empty value, or a value with fewer
    than two comma-separated tokens, under the key root
    GdbBinaries21/GdbBinary, then the loop of
    [gdbBinaryToolChainMapFromSettings] breaks at the first such index
    [i0], after [i0] iterations, and the function returns. *)
Theorem gdbBinaryToolChainMapFromSettings_terminates (settings : QSettings) (i : Z) :
  1 ≤ i → gdbBinaryStops settings i = true →
  ∃ (i0 : Z) (m : GdbBinaryToolChainMap),
    1 ≤ i0 ≤ i
    ∧ gdbBinaryStops settings i0 = true
    ∧ (∀ j, 1 ≤ j < i0 → gdbBinaryStops settings j = false)
    ∧ (∀ fuel, (Z.to_nat i0 ≤ fuel)%nat →
         gdbBinariesLoop fuel settings 1 [] = Some (i0, m))
    ∧ gdbBinaryToolChainMapFromSettings settings
      = Some (if Q_OS_UNIX && QMultiMap.isEmpty m then linuxDefaults else m).
Proof.
  intros Hi Hstop.
  destruct (first_stop settings (Z.to_nat (i - 1)) 1) as (k & Hk & Hks & Hbefore).
  { by replace (1 + Z.of_nat (Z.to_nat (i - 1))) with i by lia. }
  destruct (gdbBinariesLoop_first settings k 1 [] Hks Hbefore) as [m Hm].
  exists (1 + Z.of_nat k), m. split; [lia|]. split; [done|]. split; [|split].
  - intros j Hj. replace j with (1 + Z.of_nat (Z.to_nat (j - 1))) by lia.
    apply Hbefore. lia.
  - intros fuel Hfuel. apply Hm. lia.
  - apply (gdbBinaryToolChainMapFromSettings_fuel settings (S k) (1 + Z.of_nat k)).
    apply Hm. lia.
Qed.

End Termination.

(** Witness of [gdbBinaryToolChainMapFromSettings_terminates]: the sample
    store has an empty value at index 3 and nothing at index 5. *)
Lemma gdbBinaryToolChainMapFromSettings_terminates_witness :
  ∃ (i0 : Z) (m : GdbBinaryToolChainMap),
    1 ≤ i0 ≤ 5
    ∧ gdbBinaryStops sampleSettings i0 = true
    ∧ (∀ j, 1 ≤ j < i0 → gdbBinaryStops sampleSettings j = false)
    ∧ (∀ fuel, (Z.to_nat i0 ≤ fuel)%nat →
         gdbBinariesLoop fuel sampleSettings 1 [] = Some (i0, m))
    ∧ @gdbBinaryToolChainMapFromSettings unixBuild sampleSettings
      = Some (if @Q_OS_UNIX unixBuild && QMultiMap.isEmpty m
              then @linuxDefaults unixBuild else m).
Proof.
  apply (@gdbBinaryToolChainMapFromSettings_terminates unixBuild sampleSettings 5).
  - lia.
  - vm_compute. reflexivity.
Defined.

(** ** The early return of [writeSettings] *)

Section Frame.

Context `{Build}.

Lemma prefix_append_cancel (p a b : string) :
  String.prefix (p +:+ a) (p +:+ b) = String.prefix a b.
Proof.
  induction p as [|x p IH]; [done|].
  rewrite !append_cons. simpl. by destruct (ascii_dec x x).
Qed.

Lemma prefix_append (a b : string) : String.prefix a (a +:+ b) = true.
Proof.
  rewrite <- (append_nil_r a) at 1. rewrite prefix_append_cancel. by destruct b.
Qed.

Lemma SavedAction_writeSettings_stack (settings : QSettings) (a : SavedAction) :
  groupStack (SavedAction.writeSettings settings a) = groupStack settings.
Proof. unfold SavedAction.writeSettings. by destruct (_ || _). Qed.

(** What an item writes: its value, under its key. *)
Lemma SavedAction_writeSettings_key (settings : QSettings) (a : SavedAction) :
  SavedAction.writeSettings settings a
  = match persistentKey a with
    | None => settings
    | Some r => mkQSettings (groupStack settings)
                  (<[QSettings.groupPrefix settings +:+ r := value a]> (values settings))
    end.
Proof.
  unfold SavedAction.writeSettings, persistentKey.
  destruct (QString.isEmpty (settingsGroup a) || QString.isEmpty (settingsKey a)) eqn:E;
    [done|].
  unfold QSettings.endGroup, QSettings.setValue, QSettings.actualKey, QSettings.beginGroup,
    QSettings.groupPrefix.
  cbn [groupStack values tail foldr].
  destruct (QSettings.normalizedKey (settingsGroup a)) as [|x g]; cbn [QString.isEmpty].
  - done.
  - by rewrite !append_assoc.
Qed.

(** An item outside the group leaves the keys of the group alone. *)
Lemma SavedAction_writeSettings_frame (settings : QSettings) (a : SavedAction) (k : string) :
  outsideGdbBinaries a → inGdbBinariesGroup settings k →
  values (SavedAction.writeSettings settings a) !! k = values settings !! k.
Proof.
  unfold outsideGdbBinaries, inGdbBinariesGroup. intros Hout Hk.
  rewrite SavedAction_writeSettings_key.
  destruct (persistentKey a) as [r|]; [|done]. simpl.
  apply lookup_insert_ne. intros <-.
  rewrite prefix_append_cancel in Hk. by rewrite (Hout r) in Hk.
Qed.

Lemma writeItems_stack (settings : QSettings) (d : DebuggerSettings) :
  groupStack (writeItems settings d) = groupStack settings.
Proof.
  unfold writeItems. generalize (map_to_list (m_items d)).*2 as l. intros l. revert settings.
  induction l as [|a l IH]; intros settings; simpl; [done|].
  by rewrite IH, SavedAction_writeSettings_stack.
Qed.

Lemma writeItems_frame (settings : QSettings) (d : DebuggerSettings) (k : string) :
  (∀ code a, m_items d !! code = Some a → outsideGdbBinaries a) →
  inGdbBinariesGroup settings k →
  values (writeItems settings d) !! k = values settings !! k.
Proof.
  intros Hout. unfold writeItems.
  assert (Hl : Forall outsideGdbBinaries (map_to_list (m_items d)).*2).
  { apply Forall_forall. intros a [[code a'] [-> Hin]]%list_elem_of_fmap.
    apply elem_of_map_to_list in Hin. by apply (Hout code). }
  revert Hl. generalize (map_to_list (m_items d)).*2 as l. intros l Hl. revert settings.
  induction Hl as [|a l Ha Hl IH]; intros settings Hk; simpl; [done|].
  rewrite IH.
  - by apply SavedAction_writeSettings_frame.
  - unfold inGdbBinariesGroup, QSettings.groupPrefix in *.
    by rewrite SavedAction_writeSettings_stack.
Qed.

(** The keys the reading loop looks at belong to the group. *)
Lemma gdbBinaryKey_inGroup (settings : QSettings) (i : Z) :
  inGdbBinariesGroup settings (gdbBinaryKey settings i).
Proof.
  unfold inGdbBinariesGroup, gdbBinaryKey, QSettings.actualKey.
  rewrite normalizedKey_gdbBinaryKeyRoot. unfold gdbBinaryKeyRoot.
  rewrite prefix_append_cancel. rewrite !append_assoc.
  rewrite <- (append_assoc gdbBinariesSettingsGroupC "/"). apply prefix_append.
Qed.

Lemma gdbBinaryValue_writeItems (settings : QSettings) (d : DebuggerSettings) (i : Z) :
  (∀ code a, m_items d !! code = Some a → outsideGdbBinaries a) →
  gdbBinaryValue (writeItems settings d) i = gdbBinaryValue settings i.
Proof.
  intros Hout. unfold gdbBinaryValue, QSettings.value.
  replace (QSettings.actualKey (writeItems settings d) (gdbBinaryKeyRoot +:+ QString.number i))
    with (gdbBinaryKey settings i).
  - rewrite writeItems_frame; [done|done|apply gdbBinaryKey_inGroup].
  - unfold gdbBinaryKey, QSettings.actualKey, QSettings.groupPrefix.
    by rewrite writeItems_stack.
Qed.

(** C8 (amended).  When no registered item stores its value below
    GdbBinaries21 and the in-memory map equals the map that
    [gdbBinaryToolChainMapFromSettings] decodes from the store
    [writeSettings] is given, [writeSettings] returns the store as the items
    left it: it opens no group, removes no key and writes no numbered key,
    and every key of the gdb-binaries group has the value it had on
    entry. *)
Theorem writeSettings_group_unchanged (settings : QSettings) (d : DebuggerSettings) :
  (∀ code a, m_items d !! code = Some a → outsideGdbBinaries a) →
  gdbBinaryToolChainMapFromSettings settings = Some (m_gdbBinaryToolChainMap d) →
  writeSettings settings d = Some (writeItems settings d)
  ∧ groupStack (writeItems settings d) = groupStack settings
  ∧ ∀ k, inGdbBinariesGroup settings k →
         values (writeItems settings d) !! k = values settings !! k.
Proof.
  intros Hout Heq. split; [|split].
  - unfold writeSettings.
    rewrite (gdbBinaryToolChainMapFromSettings_ext (writeItems settings d) settings), Heq.
    + cbn [mbind option_bind]. by rewrite bool_decide_eq_true_2.
    + intros i. by apply gdbBinaryValue_writeItems.
  - apply writeItems_stack.
  - intros k Hk. by apply writeItems_frame.
Qed.

(** The items that [instance] registers are all stored in the DebugMode
    group, hence outside the gdb-binaries group. *)
Lemma registeredItems_outside : Forall (fun ci => outsideGdbBinaries ci.2) registeredItems.
Proof.
  unfold registeredItems.
  destruct Q_OS_WIN;
    repeat (apply Forall_cons; split; [intros r; vm_compute; by intros [= <-]|]);
    apply Forall_nil_2.
Qed.

Lemma insertItem_lookup (code : Z) (a : SavedAction) (d : DebuggerSettings) (c : Z) (b : SavedAction) :
  m_items (insertItem code a d) !! c = Some b →
  m_items d !! c = Some b ∨ b = a.
Proof.
  unfold insertItem. destruct (m_items d !! code) eqn:E; [by left|]. simpl.
  destruct (decide (code = c)) as [->|Hne].
  - rewrite lookup_insert_eq. intros [= ->]. by right.
  - rewrite lookup_insert_ne by done. by left.
Qed.

Lemma foldl_insertItem_outside (l : list (DebuggerActionCode * SavedAction)) :
  ∀ d, (∀ c b, m_items d !! c = Some b → outsideGdbBinaries b) →
       Forall (fun ci => outsideGdbBinaries ci.2) l →
       ∀ c b, m_items (foldl (fun d ci => insertItem (enumValue ci.1) ci.2 d) d l) !! c = Some b →
              outsideGdbBinaries b.
Proof.
  induction l as [|[c0 a0] l IH]; intros d Hd Hall; cbn [foldl]; [done|].
  apply Forall_cons in Hall as [Ha0 Hall]. apply IH; [|done].
  intros c b [Hb| ->]%insertItem_lookup; [by apply (Hd c)|done].
Qed.

Lemma instance_outside (code : Z) (a : SavedAction) :
  m_items (instance None).1 !! code = Some a → outsideGdbBinaries a.
Proof.
  unfold instance. cbn [fst].
  apply foldl_insertItem_outside; [done|apply registeredItems_outside].
Qed.

End Frame.

(** Witness of [writeSettings_group_unchanged]: the registry of a Unix
    build holding the sample map, written to the sample store; none of its
    items is stored below GdbBinaries21. *)
Lemma writeSettings_group_unchanged_witness :
  @writeSettings unixBuild sampleSettings sampleRegistry
  = Some (writeItems sampleSettings sampleRegistry)
  ∧ groupStack (writeItems sampleSettings sampleRegistry) = groupStack sampleSettings
  ∧ ∀ k, inGdbBinariesGroup sampleSettings k →
         values (writeItems sampleSettings sampleRegistry) !! k
         = values sampleSettings !! k.
Proof.
  apply (@writeSettings_group_unchanged unixBuild sampleSettings sampleRegistry).
  - exact (@instance_outside unixBuild).
  - vm_compute. reflexivity.
Defined.

(** C8 fails as stated: the sample store decodes to the map of
    [extraRegistry], so [writeSettings] returns at the comparison; yet the
    store it returns has a key in the gdb-binaries group that the store it
    was given did not have, written by the item of that registry. *)
Lemma writeSettings_unchanged_extra :
  @gdbBinaryToolChainMapFromSettings unixBuild sampleSettings
  = Some (m_gdbBinaryToolChainMap extraRegistry)
  ∧ inGdbBinariesGroup sampleSettings "GdbBinaries21/Extra"
  ∧ values sampleSettings !! "GdbBinaries21/Extra" = None
  ∧ ∃ settings',
      @writeSettings unixBuild sampleSettings extraRegistry = Some settings'
      ∧ settings' = writeItems sampleSettings extraRegistry
      ∧ values settings' !! "GdbBinaries21/Extra" = Some (QVariant_String "x").
Proof.
  split; [vm_compute; reflexivity|]. split; [vm_compute; reflexivity|].
  split; [vm_compute; reflexivity|].
  eexists. split; [vm_compute; reflexivity|].
  split; vm_compute; reflexivity.
Qed.

(** ** The registry *)

Section Registry.

Context `{Build}.

(** C6.  [insertItem] with a code that is already registered leaves the
    registry as it is: the code keeps its action, and the new item is
    reachable under no code it was not reachable under before. *)
Theorem insertItem_registered (d : DebuggerSettings) (code : Z) (a old : SavedAction) :
  m_items d !! code = Some old →
  insertItem code a d = d
  ∧ item (insertItem code a d) code = Some old
  ∧ ∀ c, item (insertItem code a d) c = item d c.
Proof.
  intros Hold. assert (E : insertItem code a d = d).
  { unfold insertItem. by rewrite Hold. }
  rewrite E. split; [done|]. split; [|done].
  unfold item. by rewrite Hold.
Qed.

Lemma item_lookup (d : DebuggerSettings) (code : Z) : item d code = m_items d !! code.
Proof. unfold item. by destruct (m_items d !! code). Qed.

(** C7.  [item] answers every code: for a code without a registered action
    it returns the null pointer, and a call of [item] on the singleton,
    whatever the code, leaves the singleton and the settings store as they
    were. *)
Theorem item_unregistered (d : DebuggerSettings) (code : Z) (settings : QSettings) :
  m_items d !! code = None →
  item d code = None
  ∧ call (Call_item code) (mkWorld (Some d) settings)
    = Some (Pointer None, mkWorld (Some d) settings)
  ∧ ∀ c, call (Call_item c) (mkWorld (Some d) settings)
         = Some (Pointer (item d c), mkWorld (Some d) settings).
Proof.
  intros Hnone. assert (E : item d code = None) by by rewrite item_lookup.
  split; [done|]. split; [|done]. unfold call. simpl. by rewrite E.
Qed.

(** C5.  For every code registered in the singleton,
    [theDebuggerBoolSetting] returns the boolean conversion of the value of
    the action registered under the code, and [theDebuggerStringSetting]
    its string conversion; both leave the singleton as [instance] does. *)
Theorem theDebuggerSetting_registered (inst : option DebuggerSettings) (code : Z)
    (a : SavedAction) :
  m_items (instance inst).1 !! code = Some a →
  theDebuggerBoolSetting code inst
  = (Some (QVariant.toBool (value a)), (instance inst).2)
  ∧ theDebuggerStringSetting code inst
    = (Some (QVariant.toString (value a)), (instance inst).2).
Proof.
  intros Ha. unfold theDebuggerBoolSetting, theDebuggerStringSetting.
  destruct (instance inst) as [d inst'] eqn:E. cbn [fst snd] in *.
  rewrite item_lookup, Ha. done.
Qed.

End Registry.

(** Witness of [insertItem_registered]: registering a fresh action under
    the code of [UseMessageBoxForSignals]. *)
Lemma insertItem_registered_witness :
  insertItem 4 SavedAction.new sampleRegistry = sampleRegistry
  ∧ item (insertItem 4 SavedAction.new sampleRegistry) 4 = Some sampleItem
  ∧ ∀ c, item (insertItem 4 SavedAction.new sampleRegistry) c = item sampleRegistry c.
Proof.
  apply (insertItem_registered sampleRegistry 4 SavedAction.new sampleItem).
  vm_compute. reflexivity.
Defined.

(** Witness of [item_unregistered]: no action has code 99. *)
Lemma item_unregistered_witness :
  item sampleRegistry 99 = None
  ∧ @call unixBuild (Call_item 99) (mkWorld (Some sampleRegistry) sampleSettings)
    = Some (Pointer None, mkWorld (Some sampleRegistry) sampleSettings)
  ∧ ∀ c, @call unixBuild (Call_item c) (mkWorld (Some sampleRegistry) sampleSettings)
         = Some (Pointer (item sampleRegistry c), mkWorld (Some sampleRegistry) sampleSettings).
Proof.
  apply (@item_unregistered unixBuild sampleRegistry 99 sampleSettings).
  vm_compute. reflexivity.
Defined.

(** Witness of [theDebuggerSetting_registered]: the first use of the
    singleton, asked for [UseMessageBoxForSignals]. *)
Lemma theDebuggerSetting_registered_witness :
  @theDebuggerBoolSetting unixBuild 4 None
  = (Some (QVariant.toBool (value sampleItem)), (@instance unixBuild None).2)
  ∧ @theDebuggerStringSetting unixBuild 4 None
    = (Some (QVariant.toString (value sampleItem)), (@instance unixBuild None).2).
Proof.
  apply (@theDebuggerSetting_registered unixBuild None 4 sampleItem).
  vm_compute. reflexivity.
Defined.

(** ** The timeline model *)

Section TimelineFacts.

Import Timeline.

(** The test slots pass on the model, whichever way it deals with what the
    sources leave open. *)
Example tst_rowHeight_passes (tooSmall : TooSmallHeight) : tst_rowHeight tooSmall = true.
Proof. destruct tooSmall; vm_compute; reflexivity. Qed.

Example tst_rowOffset_passes (tooSmall : TooSmallHeight) : tst_rowOffset tooSmall = true.
Proof. destruct tooSmall; vm_compute; reflexivity. Qed.

Example tst_expand_passes : tst_expand = true.
Proof. vm_compute. reflexivity. Qed.

Example tst_hide_passes : tst_hide = true.
Proof. vm_compute. reflexivity. Qed.

Example tst_colorByHue_passes (reduction : HueReduction) : tst_colorByHue reduction = true.
Proof. destruct reduction; vm_compute; reflexivity. Qed.

Example tst_colorByTypeId_passes (reduction : HueReduction) :
  tst_colorByTypeId reduction = true.
Proof. destruct reduction; vm_compute; reflexivity. Qed.

(** No call stores a height below the default. *)
Lemma call_rowHeights (tooSmall : TooSmallHeight) (m : AbstractTimelineModel) (c : Call) :
  map_Forall (fun _ h => DefaultRowHeight ≤ h) (d_rowHeights m) →
  map_Forall (fun _ h => DefaultRowHeight ≤ h) (d_rowHeights (call tooSmall m c)).
Proof.
  intros Hm. destruct c as [r h|b|b|]; simpl.
  - unfold setRowHeight. destruct (negb (d_expanded m)); [done|].
    destruct (Z.ltb_spec h DefaultRowHeight).
    + destruct tooSmall; [done|]. simpl. by apply map_Forall_insert_2.
    + simpl. by apply map_Forall_insert_2.
  - unfold setExpanded. by destruct (Bool.eqb b (d_expanded m)).
  - unfold setHidden. by destruct (Bool.eqb b (d_hidden m)).
  - unfold loadData. simpl.
    generalize (seqZ 0 NumItems) as l. intros l. revert m Hm.
    induction l as [|i l IH]; intros m Hm; simpl; [done|]. by apply IH.
Qed.

Lemma after_rowHeights (tooSmall : TooSmallHeight) (cs : list Call) :
  map_Forall (fun _ h => DefaultRowHeight ≤ h) (d_rowHeights (after tooSmall cs)).
Proof.
  unfold after. induction cs as [|c cs IH] using rev_ind.
  - apply map_Forall_empty.
  - rewrite foldl_app. simpl. by apply call_rowHeights.
Qed.

Lemma rowHeight_collapse_expand (m : AbstractTimelineModel) (row : Z) :
  expanded m = true →
  rowHeight (setExpanded true (setExpanded false m)) row = rowHeight m row.
Proof.
  unfold expanded. intros E. unfold rowHeight, setExpanded. rewrite E. simpl.
  by rewrite ?E.
Qed.

(** What holds of the row heights whichever way a height below the default
    is dealt with: in every state a fresh model can reach, [rowHeight] is
    at least the default of 30; [setRowHeight] changes nothing while the
    model is not expanded; a collapsed model reports the default for every
    row; and a height of at least the default set while expanded is
    reported at once and again after collapsing and re-expanding. *)
Lemma rowHeight_bounds (tooSmall : TooSmallHeight) (cs : list Call) (row height : Z) :
  let m := after tooSmall cs in
  DefaultRowHeight = 30
  ∧ DefaultRowHeight ≤ rowHeight m row
  ∧ (expanded m = false → setRowHeight tooSmall row height m = m)
  ∧ (expanded m = false → rowHeight m row = DefaultRowHeight)
  ∧ (expanded m = true →
     rowHeight (setExpanded true (setExpanded false m)) row = rowHeight m row)
  ∧ (expanded m = true → DefaultRowHeight ≤ height →
     rowHeight (setRowHeight tooSmall row height m) row = height
     ∧ rowHeight (setExpanded true (setExpanded false (setRowHeight tooSmall row height m))) row
       = height).
Proof.
  intros m. pose proof (after_rowHeights tooSmall cs) as Hinv. fold m in Hinv.
  split; [done|]. split; [|split; [|split; [|split]]].
  - unfold rowHeight. destruct (d_expanded m); [|done].
    destruct (d_rowHeights m !! row) as [h|] eqn:E; simpl; [|done].
    by apply (Hinv row h).
  - unfold expanded, setRowHeight. by intros ->.
  - unfold expanded, rowHeight. by intros ->.
  - apply rowHeight_collapse_expand.
  - intros E Hge.
    assert (Hset : rowHeight (setRowHeight tooSmall row height m) row = height).
    { unfold expanded in E. unfold rowHeight, setRowHeight. rewrite E. simpl.
      rewrite (proj2 (Z.ltb_ge _ _) Hge). simpl. rewrite ?E.
      by rewrite lookup_insert_eq. }
    split; [done|]. rewrite rowHeight_collapse_expand; [done|].
    unfold expanded in *. unfold setRowHeight. rewrite E. simpl.
    by rewrite (proj2 (Z.ltb_ge _ _) Hge).
Qed.

(** A height below the default: ignored, the call changes nothing; raised
    to the default, the row reports the default afterwards. *)
Lemma setRowHeight_tooSmall (m : AbstractTimelineModel) (row height : Z) :
  height < DefaultRowHeight →
  setRowHeight Ignored row height m = m
  ∧ (expanded m = true →
     rowHeight (setRowHeight RaisedToDefault row height m) row = DefaultRowHeight).
Proof.
  intros Hlt. unfold setRowHeight, expanded, rowHeight.
  rewrite (proj2 (Z.ltb_lt _ _) Hlt). split.
  - by destruct (negb (d_expanded m)).
  - intros E. rewrite E. simpl. rewrite ?E. by rewrite lookup_insert_eq.
Qed.

(** The two ways differ on a row that is higher than the default: after
    row 0 was set to 100, a call with height 29 leaves 100 in one case and
    30 in the other. *)
Example setRowHeight_tooSmall_differ :
  let m tooSmall := after tooSmall [Call_setExpanded true; Call_setRowHeight 0 100] in
  rowHeight (setRowHeight Ignored 0 29 (m Ignored)) 0 = 100
  ∧ rowHeight (setRowHeight RaisedToDefault 0 29 (m RaisedToDefault)) 0 = 30.
Proof. vm_compute. done. Qed.

(** For a hue that is not negative the two reductions agree: the colour
    is valid and its hue is the hue modulo 360. *)
Lemma colorByHue_nonnegative (reduction : HueReduction) (h : Z) :
  0 ≤ h → colorByHue reduction h = QColor_hsl (h `mod` 360) 150 166.
Proof.
  intros Hh. pose proof (Z.mod_pos_bound h 360) as Hb.
  unfold colorByHue. replace (match reduction with
                              | Truncated => Z.rem h 360
                              | Floored => h `mod` 360
                              end) with (h `mod` 360).
  - unfold QColor_fromHsl.
    rewrite (proj2 (Z.ltb_ge _ _)), (proj2 (Z.leb_gt _ _)) by lia. done.
  - destruct reduction; [|done]. by rewrite Z.rem_mod_nonneg by lia.
Qed.

Lemma colorBySelectionId_nonnegative (reduction : HueReduction) (i : Z) :
  0 ≤ i → i * 25 ≤ QString.INT_MAX →
  colorBySelectionId reduction i = Some (QColor_hsl ((i * 25) `mod` 360) 150 166).
Proof.
  intros Hi Hmax. unfold colorBySelectionId, selectionId, QString.isInt.
  rewrite (proj2 (Z.leb_le _ _) Hmax).
  rewrite (proj2 (Z.leb_le QString.INT_MIN (i * 25))) by (unfold QString.INT_MIN; lia).
  simpl. f_equal. apply colorByHue_nonnegative. lia.
Qed.

(** They differ on a negative hue: the remainder -10 is out of the range
    of [QColor::fromHsl], the remainder 350 is not. *)
Example colorByHue_negative :
  colorByHue Truncated (-10) = QColor_default
  ∧ colorByHue Floored (-10) = QColor_hsl 350 150 166.
Proof. vm_compute. done. Qed.

(** C3.  [setExpanded b] makes [expanded] return [b] and emits
    [expandedChanged] exactly when the stored flag changes, and [setHidden]
    does the same with [hiddenChanged]; a call that sets the current value
    again changes nothing and emits nothing. *)
Theorem setExpanded_setHidden_signals (m : AbstractTimelineModel) (b : bool) :
  expanded (setExpanded b m) = b
  ∧ emitted (setExpanded b m)
    = emitted m ++ (if Bool.eqb b (expanded m) then [] else [expandedChanged])
  ∧ hidden (setExpanded b m) = hidden m
  ∧ setExpanded (expanded m) m = m
  ∧ hidden (setHidden b m) = b
  ∧ emitted (setHidden b m)
    = emitted m ++ (if Bool.eqb b (hidden m) then [] else [hiddenChanged])
  ∧ expanded (setHidden b m) = expanded m
  ∧ setHidden (hidden m) m = m.
Proof.
  unfold expanded, hidden, setExpanded, setHidden.
  rewrite !Bool.eqb_reflx.
  destruct b, (d_expanded m) eqn:E1, (d_hidden m) eqn:E2; simpl;
    rewrite ?app_nil_r, ?E1, ?E2; done.
Qed.

End TimelineFacts.

(** ** Further facts about the persistence format *)

(** Why the round trip is stated up to the order of the entries: the
    toolchains of one binary come back in reverse iteration order. *)
Example writeSettings_reverses_toolchains :
  @writeSettings unixBuild emptySettings (withMap [("gdb", 2); ("gdb", 1)])
    ≫= @gdbBinaryToolChainMapFromSettings unixBuild
  = Some [("gdb", 1); ("gdb", 2)].
Proof. vm_compute. reflexivity. Qed.

(** Why no toolchain may occur in two entries: the second entry is skipped
    on reading, also when it names the same binary. *)
Example writeSettings_drops_repeated_toolchain :
  @writeSettings unixBuild emptySettings (withMap [("gdb", 1); ("gdb", 1)])
    ≫= @gdbBinaryToolChainMapFromSettings unixBuild
  = Some [("gdb", 1)].
Proof. vm_compute. reflexivity. Qed.

(** Why binaries must be non-empty: the first entry of an empty binary
    appends to the last element of an empty list. *)
Example writeSettings_empty_binary :
  @writeSettings unixBuild emptySettings (withMap [("", 1)]) = None.
Proof. vm_compute. reflexivity. Qed.

(** Why the map must be non-empty: on a Unix build an empty stored list
    decodes to the Linux defaults. *)
Example writeSettings_empty_map :
  @writeSettings unixBuild emptySettings (withMap [])
    ≫= @gdbBinaryToolChainMapFromSettings unixBuild
  = Some [("gdb", 201); ("gdb", 200); ("gdb", 1); ("gdb", 0)].
Proof. vm_compute. reflexivity. Qed.

Section LoopBound.

Variable settings : QSettings.

(** The loop variable at the [break] is below the start plus the fuel. *)
Lemma gdbBinariesLoop_index (fuel : nat) :
  ∀ i m i0 m', gdbBinariesLoop fuel settings i m = Some (i0, m') →
    i ≤ i0 < i + Z.of_nat fuel.
Proof.
  induction fuel as [|fuel IH]; intros i m i0 m' Hloop; [done|].
  destruct (gdbBinaryStops settings i) eqn:Hs.
  - rewrite gdbBinariesLoop_break in Hloop by done. injection Hloop as <- _. lia.
  - rewrite gdbBinariesLoop_continue in Hloop by done. apply IH in Hloop. lia.
Qed.

(** The loop variable never exceeds the number of stored entries plus one,
    so an [int] holds it for every store of fewer than [INT_MAX] entries. *)
Lemma gdbBinariesLoop_index_bound (i0 : Z) (m : list (string * Z)) (fuel : nat) :
  gdbBinariesLoop fuel settings 1 [] = Some (i0, m) →
  1 ≤ i0 ≤ Z.of_nat (size (values settings)) + 1.
Proof.
  intros Hloop.
  destruct (gdbBinariesLoop_total settings 1 []) as [[i1 m1] Htot].
  pose proof (gdbBinariesLoop_agree _ _ _ _ _ _ _ Hloop Htot) as [= -> ->].
  apply gdbBinariesLoop_index in Htot. lia.
Qed.

End LoopBound.

(** ** The order in which the items are visited *)

(** [writeSettings] visits the items in the order of a [QHash], which the
    registry does not determine.  The written store does not depend on that
    order as long as no two persistent items share a key, and the items of
    [instance] never do. *)
Section HashOrder.

Context `{Build}.




Lemma registeredItems_keys : NoDup (omap persistentKey registeredItems.*2).
Proof.
  unfold registeredItems.
  destruct Q_OS_WIN; apply (bool_decide_unpack _); vm_compute; exact I.
Qed.

Lemma foldl_insertItem_keys (l : list (DebuggerActionCode * SavedAction)) :
  ∀ d, NoDup (omap persistentKey (map_to_list (m_items d)).*2 ++ omap persistentKey l.*2) →
       NoDup (omap persistentKey
                (map_to_list
                   (m_items (foldl (fun d ci => insertItem (enumValue ci.1) ci.2 d) d l))).*2).
Proof.
  induction l as [|[c a] l IH]; intros d Hnd; cbn [foldl].
  - by rewrite app_nil_r in Hnd.
  - apply IH. cbn [fst snd]. unfold insertItem.
    rewrite fmap_cons in Hnd. cbn [snd] in Hnd.
    destruct (m_items d !! enumValue c) eqn:E.
    + refine (sublist_NoDup _ _ Hnd _). apply sublist_app; [done|].
      simpl. destruct (persistentKey a); [by apply sublist_cons|done].
    + simpl. rewrite (map_to_list_insert _ _ _ E). rewrite fmap_cons. cbn [snd].
      change (a :: l.*2) with ([a] ++ l.*2) in Hnd.
      change (a :: (map_to_list (m_items d)).*2) with ([a] ++ (map_to_list (m_items d)).*2).
      rewrite omap_app in Hnd |- *. rewrite app_assoc in Hnd.
      by rewrite (Permutation_app_comm (omap persistentKey [a])).
Qed.

(** The items of the singleton have pairwise different keys. *)
Lemma instance_keys :
  NoDup (omap persistentKey (map_to_list (m_items (instance None).1)).*2).
Proof.
  unfold instance. cbn [fst]. apply foldl_insertItem_keys.
  unfold DebuggerSettings_new. simpl. rewrite map_to_list_empty. simpl.
  apply registeredItems_keys.
Qed.






End HashOrder.



(** * Further properties of the source *)

(** ** Registering and looking up actions *)

Section RegistryMore.

Context `{Build}.

(** X1.  [insertItem] with a code that is not registered yet binds the code
    to the new item; every other code keeps its answer from [item], and
    the gdb-binary map is not touched. *)
Theorem insertItem_fresh (d : DebuggerSettings) (code : Z) (a : SavedAction) :
  m_items d !! code = None →
  item (insertItem code a d) code = Some a
  ∧ (∀ c, c ≠ code → item (insertItem code a d) c = item d c)
  ∧ m_gdbBinaryToolChainMap (insertItem code a d) = m_gdbBinaryToolChainMap d.
Proof.
  intros Hnone. unfold insertItem. rewrite Hnone. split; [|split; [|done]].
  - rewrite item_lookup. simpl. apply lookup_insert_eq.
  - intros c Hc. rewrite !item_lookup. simpl. by apply lookup_insert_ne.
Qed.

Lemma item_insertItem (d : DebuggerSettings) (code c : Z) (a : SavedAction) :
  item (insertItem code a d) c
  = match item d c with
    | Some b => Some b
    | None => if bool_decide (code = c) then Some a else None
    end.
Proof.
  rewrite !item_lookup. unfold insertItem.
  destruct (m_items d !! code) eqn:E.
  - destruct (m_items d !! c) eqn:Ec; [done|]. case_bool_decide; [congruence|done].
  - simpl. case_bool_decide as Hc.
    + subst c. by rewrite lookup_insert_eq, E.
    + rewrite lookup_insert_ne by done. by destruct (m_items d !! c).
Qed.

Lemma item_insertItems (l : list (Z * SavedAction)) :
  ∀ d code, item (insertItems l d) code
            = match item d code with
              | Some a => Some a
              | None => firstBinding code l
              end.
Proof.
  induction l as [|[c a] l IH]; intros d code; unfold insertItems in *; cbn [foldl].
  - by destruct (item d code).
  - rewrite IH. cbn [fst snd firstBinding]. rewrite item_insertItem.
    destruct (item d code); [done|]. by case_bool_decide.
Qed.

(** X2.  In a run of [insertItem] calls the first registration of a code
    wins: afterwards [item] returns what it returned before for a code
    that was registered already, and otherwise the action of the first call
    that carried the code; later calls with the same code are dropped. *)
Theorem insertItems_first_wins (l : list (Z * SavedAction)) (d : DebuggerSettings) (code : Z) :
  item (insertItems l d) code
  = match item d code with
    | Some a => Some a
    | None => firstBinding code l
    end.
Proof. apply item_insertItems. Qed.

Lemma instance_insertItems :
  (instance None).1
  = insertItems ((fun ci => (enumValue ci.1, ci.2)) <$> registeredItems) DebuggerSettings_new.
Proof.
  unfold instance, insertItems. cbn [fst].
  generalize DebuggerSettings_new as d. generalize registeredItems as l.
  induction l as [|ci l IH]; intros d; [done|]. cbn [fmap list_fmap foldl]. apply IH.
Qed.

Lemma registeredItems_codes : NoDup registeredItems.*1.
Proof.
  unfold registeredItems.
  destruct Q_OS_WIN; apply (bool_decide_unpack _); vm_compute; exact I.
Qed.

Lemma firstBinding_NoDup (f : DebuggerActionCode → Z) (l : list (DebuggerActionCode * SavedAction))
    (c : DebuggerActionCode) (a : SavedAction) :
  Inj (=) (=) f → NoDup l.*1 → (c, a) ∈ l →
  firstBinding (f c) ((fun ci => (f ci.1, ci.2)) <$> l) = Some a.
Proof.
  intros Hinj. induction l as [|[c0 a0] l IH]; intros Hnd Hin; [by apply elem_of_nil in Hin|].
  rewrite fmap_cons in Hnd. apply NoDup_cons in Hnd as [Hc0 Hnd]. cbn [fst] in Hc0.
  rewrite fmap_cons. cbn [fst snd firstBinding].
  apply elem_of_cons in Hin as [[= -> ->]|Hin].
  - by rewrite bool_decide_eq_true_2.
  - rewrite bool_decide_eq_false_2; [by apply IH|].
    intros ->%Hinj. apply Hc0. apply list_elem_of_fmap. by exists (c, a).
Qed.

Lemma firstBinding_is_Some (f : DebuggerActionCode → Z) (l : list (DebuggerActionCode * SavedAction))
    (c : DebuggerActionCode) (a : SavedAction) :
  (c, a) ∈ l → is_Some (firstBinding (f c) ((fun ci => (f ci.1, ci.2)) <$> l)).
Proof.
  induction l as [|[c0 a0] l IH]; intros Hin; [by apply elem_of_nil in Hin|].
  rewrite fmap_cons. cbn [fst snd firstBinding].
  case_bool_decide; [done|]. apply elem_of_cons in Hin as [[= -> ->]|Hin]; [done|by apply IH].
Qed.

(** X13.  After the first call of [instance] every action code of the
    registration list is registered, whatever the numbering of the enum;
    when the numbering is injective, each code is bound to exactly the item
    created for it, and no call of [insertItem] found its code taken. *)
Theorem instance_registers (c : DebuggerActionCode) (a : SavedAction) :
  (c, a) ∈ registeredItems →
  is_Some (item (instance None).1 (enumValue c))
  ∧ (Inj (=) (=) enumValue →
     item (instance None).1 (enumValue c) = Some a
     ∧ size (m_items (instance None).1) = length registeredItems).
Proof.
  intros Hin. rewrite instance_insertItems, item_insertItems.
  rewrite item_lookup. cbn [DebuggerSettings_new m_items]. rewrite lookup_empty.
  split; [by eapply firstBinding_is_Some|].
  intros Hinj. split; [apply firstBinding_NoDup; [done|apply registeredItems_codes|done]|].
  pose proof registeredItems_codes as Hnd. revert Hnd.
  assert (Hfresh : ∀ ci, ci ∈ registeredItems →
            m_items DebuggerSettings_new !! enumValue ci.1 = None) by done.
  revert Hfresh. replace (length registeredItems)
    with (size (m_items DebuggerSettings_new) + length registeredItems)%nat
    by (by cbn [DebuggerSettings_new m_items]; rewrite map_size_empty).
  generalize DebuggerSettings_new as d. generalize registeredItems as l.
  clear c a Hin. unfold insertItems.
  induction l as [|[c a] l IH]; intros d Hfresh Hnd; cbn [foldl length].
  { by rewrite Nat.add_0_r. }
  rewrite fmap_cons in Hnd. apply NoDup_cons in Hnd as [Hc Hnd]. cbn [fst] in Hc.
  rewrite fmap_cons. cbn [fst snd foldl].
  assert (Hca : m_items d !! enumValue c = None) by (apply (Hfresh (c, a)); left).
  rewrite IH; [|..|done].
  - unfold insertItem. rewrite Hca. cbn [m_items].
    rewrite map_size_insert_None by done. lia.
  - intros ci Hci. unfold insertItem. rewrite Hca. cbn [m_items].
    rewrite lookup_insert_ne; [apply Hfresh; by right|].
    intros E%Hinj. apply Hc. apply list_elem_of_fmap. exists ci. by rewrite E.
Qed.

(** X14.  The items [instance] registers never trip the second assertion
    of [insertItem]: each one with a settings key has a valid default
    value.  Each persistent one is stored in the group DebugMode, and no two
    of them share a key. *)
Theorem instance_items_wellformed :
  (∀ code a, m_items (instance None).1 !! code = Some a →
     hasDefaultValue a = true
     ∧ (settingsKey a ≠ "" → settingsGroup a = debugModeSettingsGroupC))
  ∧ NoDup (omap persistentKey (map_to_list (m_items (instance None).1)).*2).
Proof.
  split; [|apply instance_keys].
  assert (Hall : Forall (fun ci : DebuggerActionCode * SavedAction =>
                   hasDefaultValue ci.2 = true
                   ∧ (settingsKey ci.2 ≠ "" → settingsGroup ci.2 = debugModeSettingsGroupC))
                 registeredItems).
  { unfold registeredItems.
    destruct Q_OS_WIN; repeat (apply Forall_cons; split; [by vm_compute|]);
      apply Forall_nil_2. }
  unfold instance. cbn [fst]. revert Hall.
  assert (Hnew : ∀ code a, m_items DebuggerSettings_new !! code = Some a →
            hasDefaultValue a = true
            ∧ (settingsKey a ≠ "" → settingsGroup a = debugModeSettingsGroupC)) by done.
  revert Hnew. generalize DebuggerSettings_new as d. generalize registeredItems as l.
  induction l as [|[c0 a0] l IH]; intros d Hd Hall; cbn [foldl]; [done|].
  apply Forall_cons in Hall as [Ha0 Hall]. apply IH; [|done].
  intros c b [Hb| ->]%insertItem_lookup; [by apply (Hd c)|done].
Qed.

(** X15.  [theDebuggerBoolSetting] and [theDebuggerStringSetting] are
    defined exactly for the registered codes: for every other code they
    dereference the null pointer that [item] returns.  Either way the
    singleton exists afterwards, with the registry [instance] returns. *)
Theorem theDebuggerSetting_defined (inst : option DebuggerSettings) (code : Z) :
  ((theDebuggerBoolSetting code inst).1 = None ↔ m_items (instance inst).1 !! code = None)
  ∧ ((theDebuggerStringSetting code inst).1 = None ↔ m_items (instance inst).1 !! code = None)
  ∧ (theDebuggerBoolSetting code inst).2 = Some (instance inst).1
  ∧ (theDebuggerStringSetting code inst).2 = Some (instance inst).1
  ∧ theDebuggerAction code inst = (m_items (instance inst).1 !! code, Some (instance inst).1).
Proof.
  unfold theDebuggerBoolSetting, theDebuggerStringSetting, theDebuggerAction.
  assert (E2 : (instance inst).2 = Some (instance inst).1) by by destruct inst.
  destruct (instance inst) as [d inst'] eqn:E. cbn [fst snd] in *. subst inst'.
  rewrite item_lookup. destruct (m_items d !! code); cbn; repeat split; done.
Qed.

End RegistryMore.

(** Witness of [insertItem_fresh]: code 99 is free in the sample registry. *)
Lemma insertItem_fresh_witness :
  item (insertItem 99 sampleItem sampleRegistry) 99 = Some sampleItem
  ∧ (∀ c, c ≠ 99 → item (insertItem 99 sampleItem sampleRegistry) c = item sampleRegistry c)
  ∧ m_gdbBinaryToolChainMap (insertItem 99 sampleItem sampleRegistry)
    = m_gdbBinaryToolChainMap sampleRegistry.
Proof.
  apply (insertItem_fresh sampleRegistry 99 sampleItem). vm_compute. reflexivity.
Defined.

Lemma sampleEnumValue_inj : Inj (=) (=) sampleEnumValue.
Proof. intros x y E. destruct x; destruct y; first [reflexivity | discriminate E]. Qed.

(** Witness of [instance_registers]: [UseMessageBoxForSignals] on the Unix
    build with the sample numbering, which is injective. *)
Lemma instance_registers_witness :
  item (@instance unixBuild None).1 (@enumValue unixBuild UseMessageBoxForSignals)
  = Some sampleItem
  ∧ size (m_items (@instance unixBuild None).1) = length (@registeredItems unixBuild).
Proof.
  apply (@instance_registers unixBuild UseMessageBoxForSignals sampleItem).
  - apply list_elem_of_In. vm_compute. do 4 right. left. reflexivity.
  - exact sampleEnumValue_inj.
Defined.

(** ** Reading the flat list *)

Section ReadingMore.

Context `{Build}.

(** Where a finished loop broke: at an index that stops it, after indices
    that do not. *)
Lemma gdbBinariesLoop_result (settings : QSettings) (fuel : nat) :
  ∀ i m i0 m', gdbBinariesLoop fuel settings i m = Some (i0, m') →
    gdbBinaryStops settings i0 = true
    ∧ ∀ j, i ≤ j < i0 → gdbBinaryStops settings j = false.
Proof.
  induction fuel as [|fuel IH]; intros i m i0 m' Hloop; [done|].
  destruct (gdbBinaryStops settings i) eqn:Hs.
  - rewrite gdbBinariesLoop_break in Hloop by done. injection Hloop as <- _.
    split; [done|lia].
  - rewrite gdbBinariesLoop_continue in Hloop by done.
    destruct (IH _ _ _ _ Hloop) as [Hstop Hbefore]. split; [done|].
    intros j Hj. destruct (decide (j = i)) as [->|Hne]; [done|]. apply Hbefore. lia.
Qed.

(** X3.  [gdbBinaryToolChainMapFromSettings] returns for every store: the
    loop breaks at some index [i0] that is at most one more than the number
    of stored entries, so the [int] counter cannot overflow on a store of
    fewer than [INT_MAX] entries; [i0] is the first index with an empty
    value or a single token, and any fuel of [i0] iterations suffices. *)
Theorem gdbBinaryToolChainMapFromSettings_returns (settings : QSettings) :
  ∃ (i0 : Z) (m : GdbBinaryToolChainMap),
    1 ≤ i0 ≤ Z.of_nat (size (values settings)) + 1
    ∧ (Z.of_nat (size (values settings)) < QString.INT_MAX → QString.isInt i0 = true)
    ∧ gdbBinaryStops settings i0 = true
    ∧ (∀ j, 1 ≤ j < i0 → gdbBinaryStops settings j = false)
    ∧ (∀ fuel, (Z.to_nat i0 ≤ fuel)%nat → gdbBinariesLoop fuel settings 1 [] = Some (i0, m))
    ∧ gdbBinaryToolChainMapFromSettings settings
      = Some (if Q_OS_UNIX && QMultiMap.isEmpty m then linuxDefaults else m).
Proof.
  destruct (gdbBinariesLoop_total settings 1 []) as [[i0 m] Htot].
  pose proof (gdbBinariesLoop_index_bound settings _ _ _ Htot) as Hb.
  destruct (gdbBinariesLoop_result settings _ _ _ _ _ Htot) as [Hstop Hbefore].
  exists i0, m. split; [done|]. split; [|split; [done|split; [done|split]]].
  - intros Hsize. unfold QString.isInt, QString.INT_MIN, QString.INT_MAX in *.
    apply andb_true_iff. split; apply Z.leb_le; lia.
  - intros fuel Hfuel.
    destruct (gdbBinariesLoop_first settings (Z.to_nat (i0 - 1)) 1 []) as [m' Hm'].
    + by replace (1 + Z.of_nat (Z.to_nat (i0 - 1))) with i0 by lia.
    + intros j Hj. apply Hbefore. lia.
    + replace (1 + Z.of_nat (Z.to_nat (i0 - 1))) with i0 in Hm' by lia.
      pose proof (Hm' fuel ltac:(lia)) as Hf.
      pose proof (gdbBinariesLoop_agree _ _ _ _ _ _ _ Hf Htot) as [= ->]. done.
  - by apply (gdbBinaryToolChainMapFromSettings_fuel settings _ _ _ Htot).
Qed.

Lemma linuxDefaults_entries :
  linuxDefaults = [("gdb", UNKNOWN); ("gdb", OTHER); ("gdb", LINUX_ICC); ("gdb", GCC)].
Proof. reflexivity. Qed.

(** X4.  When the first entry of the flat list is missing, empty or a
    single token, nothing is read: the result is the empty map, except on a
    Unix build, where it is the four Linux defaults, all for the binary
    gdb. *)
Theorem gdbBinaryToolChainMapFromSettings_no_list (settings : QSettings) :
  gdbBinaryStops settings 1 = true →
  gdbBinaryToolChainMapFromSettings settings
  = Some (if Q_OS_UNIX
          then [("gdb", UNKNOWN); ("gdb", OTHER); ("gdb", LINUX_ICC); ("gdb", GCC)]
          else []).
Proof.
  intros Hstop.
  rewrite (gdbBinaryToolChainMapFromSettings_fuel settings 1 1 []).
  - by rewrite andb_true_r, linuxDefaults_entries.
  - by apply gdbBinariesLoop_break.
Qed.

(** X5.  On a Unix build [gdbBinaryToolChainMapFromSettings] never returns
    an empty map. *)
Theorem gdbBinaryToolChainMapFromSettings_unix_nonempty (settings : QSettings)
    (m : GdbBinaryToolChainMap) :
  Q_OS_UNIX = true →
  gdbBinaryToolChainMapFromSettings settings = Some m → m ≠ [].
Proof.
  intros Hunix. unfold gdbBinaryToolChainMapFromSettings.
  destruct (gdbBinariesLoop _ settings 1 []) as [[i0 m0]|]; [|done].
  rewrite Hunix. destruct m0; simpl; intros [= <-]; [|done].
  by rewrite linuxDefaults_entries.
Qed.

(** Two stores that agree up to the index of the [break] are read alike. *)
Lemma gdbBinariesLoop_upto (settings settings' : QSettings) (fuel : nat) :
  ∀ i m i0 m', gdbBinariesLoop fuel settings i m = Some (i0, m') →
    (∀ j, i ≤ j ≤ i0 → gdbBinaryValue settings j = gdbBinaryValue settings' j) →
    gdbBinariesLoop fuel settings' i m = Some (i0, m').
Proof.
  induction fuel as [|fuel IH]; intros i m i0 m' Hloop Hv; [done|].
  pose proof (gdbBinariesLoop_index settings _ _ _ _ _ Hloop) as Hi.
  assert (Hs : gdbBinaryStops settings' i = gdbBinaryStops settings i).
  { unfold gdbBinaryStops. rewrite (Hv i) by lia. done. }
  destruct (gdbBinaryStops settings i) eqn:Hsi.
  - rewrite gdbBinariesLoop_break in Hloop |- * by done. done.
  - rewrite gdbBinariesLoop_continue in Hloop |- * by done.
    rewrite <- (Hv i) by lia. apply IH; [done|].
    intros j Hj. apply Hv. lia.
Qed.

Lemma gdbBinaryToolChainMapFromSettings_upto (settings settings' : QSettings) (i0 : Z) :
  1 ≤ i0 → gdbBinaryStops settings i0 = true →
  (∀ j, 1 ≤ j ≤ i0 → gdbBinaryValue settings j = gdbBinaryValue settings' j) →
  gdbBinaryToolChainMapFromSettings settings = gdbBinaryToolChainMapFromSettings settings'.
Proof.
  intros Hi0 Hstop Hv.
  destruct (gdbBinariesLoop_total settings 1 []) as [[k m] Htot].
  destruct (gdbBinariesLoop_result settings _ _ _ _ _ Htot) as [_ Hbefore].
  assert (Hk : k ≤ i0).
  { destruct (Z.le_gt_cases k i0) as [|Hgt]; [done|].
    rewrite Hbefore in Hstop by lia. done. }
  rewrite (gdbBinaryToolChainMapFromSettings_fuel settings _ _ _ Htot).
  apply (gdbBinariesLoop_upto settings settings') in Htot.
  - by rewrite (gdbBinaryToolChainMapFromSettings_fuel settings' _ _ _ Htot).
  - intros j Hj. apply Hv. lia.
Qed.

(** X6.  Entries behind the terminating element are suppressed while
    reading: two stores that hold the same values up to an index with an
    empty value or a single token decode to the same map, whatever else
    they hold. *)
Theorem gdbBinaryToolChainMapFromSettings_suppresses (settings settings' : QSettings) (i0 : Z) :
  1 ≤ i0 → gdbBinaryStops settings i0 = true →
  (∀ j, 1 ≤ j ≤ i0 → gdbBinaryValue settings j = gdbBinaryValue settings' j) →
  gdbBinaryToolChainMapFromSettings settings = gdbBinaryToolChainMapFromSettings settings'.
Proof. apply gdbBinaryToolChainMapFromSettings_upto. Qed.

End ReadingMore.

(** Witness of [gdbBinaryToolChainMapFromSettings_no_list]: the empty store. *)
Lemma gdbBinaryToolChainMapFromSettings_no_list_witness :
  @gdbBinaryToolChainMapFromSettings unixBuild emptySettings
  = Some (if @Q_OS_UNIX unixBuild
          then [("gdb", @UNKNOWN unixBuild); ("gdb", @OTHER unixBuild);
                ("gdb", @LINUX_ICC unixBuild); ("gdb", @GCC unixBuild)]
          else []).
Proof.
  apply (@gdbBinaryToolChainMapFromSettings_no_list unixBuild emptySettings).
  vm_compute. reflexivity.
Defined.

(** Witness of [gdbBinaryToolChainMapFromSettings_unix_nonempty]: the
    sample store on the Unix build. *)
Lemma gdbBinaryToolChainMapFromSettings_unix_nonempty_witness : sampleMap ≠ [].
Proof.
  apply (@gdbBinaryToolChainMapFromSettings_unix_nonempty unixBuild sampleSettings sampleMap).
  - reflexivity.
  - vm_compute. reflexivity.
Defined.

(** Witness of [gdbBinaryToolChainMapFromSettings_suppresses]: the stale
    fourth entry behind the terminator of the sample store is not read. *)
Lemma gdbBinaryToolChainMapFromSettings_suppresses_witness :
  @gdbBinaryToolChainMapFromSettings unixBuild sampleSettings
  = @gdbBinaryToolChainMapFromSettings unixBuild staleSettings.
Proof.
  apply (@gdbBinaryToolChainMapFromSettings_suppresses unixBuild sampleSettings staleSettings 3).
  - lia.
  - vm_compute. reflexivity.
  - intros j Hj.
    assert (Hc : j = 1 ∨ j = 2 ∨ j = 3) by lia.
    destruct Hc as [->|[->| ->]]; vm_compute; reflexivity.
Defined.

(** ** What a decoded map looks like *)

Section DecodedMaps.

Context `{Build}.

Lemma split_tokens_without (sep : ascii) (s : string) :
  Forall (fun t => QString.contains t sep = false) (QString.split sep s).
Proof.
  induction s as [|a s IH]; simpl; [by repeat constructor|].
  destruct (Ascii.eqb a sep) eqn:E; [by constructor|].
  destruct (QString.split sep s) as [|t ts]; [repeat constructor; simpl; by rewrite E|].
  apply Forall_cons in IH as [Ht Hts]. constructor; [|done]. simpl. by rewrite E, Ht.
Qed.

Lemma split_head_nonempty (s b : string) (ts : list string) :
  s ≠ "" → String.prefix "," s = false → QString.split "," s = b :: ts → b ≠ "".
Proof.
  destruct s as [|a s]; [done|]. intros _ Hp. simpl in Hp |- *.
  destruct (Ascii.eqb_spec a ","%char) as [->|Hne].
  - simpl in Hp. by destruct s.
  - destruct (QString.split "," s); by intros [= <- _].
Qed.

Lemma toInt_isInt (t : string) : QString.isInt (QString.toInt t) = true.
Proof.
  unfold QString.toInt.
  match goal with |- context [match ?p with Some _ => _ | None => 0 end] =>
    destruct p as [d|] end; [|done].
  by destruct (QString.isInt (Z.of_int d)) eqn:E.
Qed.

Lemma key_empty_absent (v : Z) (m : list (string * Z)) :
  Forall (fun it => it.1 ≠ "") m → QMultiMap.key v m = "" → v ∉ m.*2.
Proof.
  induction 1 as [|[k' v'] m Hk Hm IH]; simpl; [intros _; apply not_elem_of_nil|].
  destruct (Z.eqb_spec v' v) as [->|Hne]; [done|].
  intros Hkey. apply not_elem_of_cons. split; [done|by apply IH].
Qed.

(** The paranoia check keeps the map representable. *)
Lemma insertToolChain_representable (binary : string) (m : list (string * Z)) (t : string) :
  binary ≠ "" → QString.contains binary "," = false →
  representable m → representable (insertToolChain binary m t).
Proof.
  intros Hb Hc [Hok Hnd]. unfold insertToolChain.
  destruct (QString.isEmpty _) eqn:E; [|done].
  apply isEmpty_true in E. split.
  - rewrite insert_perm. constructor; [|done]. cbn [fst snd].
    split; [done|]. split; [done|apply toInt_isInt].
  - rewrite insert_perm. rewrite fmap_cons. cbn [snd]. apply NoDup_cons. split; [|done].
    apply key_empty_absent; [|done].
    eapply Forall_impl; [exact Hok|]. by intros it (? & _).
Qed.

Lemma decodeLine_representable (m : list (string * Z)) (line : string) :
  line ≠ "" → String.prefix "," line = false →
  representable m → representable (decodeLine m line).
Proof.
  intros Hne Hp Hm. unfold decodeLine.
  pose proof (split_tokens_without "," line) as Htok.
  destruct (QString.split "," line) as [|binary tokens] eqn:E; [done|].
  apply Forall_cons in Htok as [Hbin _].
  pose proof (split_head_nonempty _ _ _ Hne Hp E) as Hb.
  clear E. revert m Hm. induction tokens as [|t tokens IH]; intros m Hm; [done|].
  cbn [foldl]. apply IH. by apply insertToolChain_representable.
Qed.

Lemma gdbBinariesLoop_representable (settings : QSettings) (fuel : nat) :
  noLeadingComma settings →
  ∀ i m i0 m', representable m →
    gdbBinariesLoop fuel settings i m = Some (i0, m') → representable m'.
Proof.
  intros Hs. induction fuel as [|fuel IH]; intros i m i0 m' Hm Hloop; [done|].
  destruct (gdbBinaryStops settings i) eqn:Hstop.
  - rewrite gdbBinariesLoop_break in Hloop by done. by injection Hloop as _ <-.
  - rewrite gdbBinariesLoop_continue in Hloop by done.
    apply orb_false_elim in Hstop as [Hne _].
    refine (IH _ _ _ _ _ Hloop). apply decodeLine_representable; [|clear Hloop|done].
    + by apply isEmpty_false.
    + unfold gdbBinaryValue, QSettings.value in *.
      destruct (values settings !! _) as [v|] eqn:E; [by apply (Hs _ _ E)|done].
Qed.

Lemma linuxDefaults_representable : toolChainsDistinct → representable linuxDefaults.
Proof.
  intros [Hnd Hint]. rewrite linuxDefaults_entries.
  apply Forall_cons in Hint as [? Hint]. apply Forall_cons in Hint as [? Hint].
  apply Forall_cons in Hint as [? Hint]. apply Forall_cons in Hint as [? _].
  split.
  - repeat constructor; done.
  - cbn [fmap list_fmap snd].
    pose proof (reverse_Permutation [GCC; LINUX_ICC; OTHER; UNKNOWN]) as Hp.
    change (reverse [GCC; LINUX_ICC; OTHER; UNKNOWN])
      with [UNKNOWN; OTHER; LINUX_ICC; GCC] in Hp.
    by rewrite Hp.
Qed.

Lemma decoded_representable (settings : QSettings) (m : GdbBinaryToolChainMap) :
  noLeadingComma settings →
  Q_OS_UNIX = false ∨ toolChainsDistinct →
  gdbBinaryToolChainMapFromSettings settings = Some m →
  representable m.
Proof.
  intros Hs Hbuild. unfold gdbBinaryToolChainMapFromSettings.
  destruct (gdbBinariesLoop _ settings 1 []) as [[i0 m0]|] eqn:Hloop; [|done].
  assert (Hm0 : representable m0).
  { eapply gdbBinariesLoop_representable; [done| |exact Hloop]. split; constructor. }
  intros [= <-]. destruct (Q_OS_UNIX && QMultiMap.isEmpty m0) eqn:E; [|done].
  destruct Hbuild as [Hu|Hd]; [by rewrite Hu in E|by apply linuxDefaults_representable].
Qed.

(** X7.  Whatever [gdbBinaryToolChainMapFromSettings] decodes from a store
    in which no value starts with a comma is a map the flat list can
    represent: its binaries are non-empty and free of commas, its
    toolchains are [int]s, and no toolchain occurs in two entries.  (On a
    Unix build the Linux defaults may be returned, so the toolchain
    constants of the build must be different.) *)
Theorem gdbBinaryToolChainMapFromSettings_representable (settings : QSettings)
    (m : GdbBinaryToolChainMap) :
  noLeadingComma settings →
  Q_OS_UNIX = false ∨ toolChainsDistinct →
  gdbBinaryToolChainMapFromSettings settings = Some m →
  representable m.
Proof. apply decoded_representable. Qed.

(** Writing a representable, non-empty map and reading it back. *)
Lemma written_map_read_back (settings : QSettings) (d : DebuggerSettings) :
  m_gdbBinaryToolChainMap d ≠ [] →
  representable (m_gdbBinaryToolChainMap d) →
  ∃ settings' m',
    writeSettings settings d = Some settings'
    ∧ gdbBinaryToolChainMapFromSettings settings' = Some m'
    ∧ m' ≡ₚ m_gdbBinaryToolChainMap d.
Proof.
  intros Hne Hrep. unfold writeSettings.
  destruct (gdbBinaryToolChainMapFromSettings_total (writeItems settings d)) as [stored Hstored].
  rewrite Hstored. cbn [mbind option_bind].
  case_bool_decide as Heq.
  - exists (writeItems settings d), stored. by rewrite Heq.
  - destruct (buildSettingsList_representable _ Hrep) as (lb & sl & Hb & Hgood & Hdec).
    rewrite Hb. cbn [mbind option_bind snd].
    destruct (storedLines_written (writeItems settings d) (QStringList.push_back sl ""))
      as [_ Hlines].
    eexists _, (reinserted (m_gdbBinaryToolChainMap d)). split; [done|]. split.
    + rewrite <- Hdec. apply gdbBinaryToolChainMapFromSettings_lines; [done|done|].
      rewrite Hdec. intros E. pose proof (reinserted_perm (m_gdbBinaryToolChainMap d)) as Hp.
      rewrite E in Hp. by apply Permutation_nil_l in Hp.
    + apply reinserted_perm.
Qed.

(** X8.  A map read from one store can be carried over to any other: when
    the map decoded from a store without leading commas is not empty and is
    made the in-memory map, [writeSettings] succeeds on every store, and
    decoding the written store yields the same entries again. *)
Theorem gdbBinaryToolChainMap_transfer (source target : QSettings) (d : DebuggerSettings) :
  noLeadingComma source →
  Q_OS_UNIX = false ∨ toolChainsDistinct →
  gdbBinaryToolChainMapFromSettings source = Some (m_gdbBinaryToolChainMap d) →
  m_gdbBinaryToolChainMap d ≠ [] →
  ∃ target' m',
    writeSettings target d = Some target'
    ∧ gdbBinaryToolChainMapFromSettings target' = Some m'
    ∧ m' ≡ₚ m_gdbBinaryToolChainMap d.
Proof.
  intros Hs Hbuild Hdec Hne. apply written_map_read_back; [done|].
  by apply (decoded_representable source).
Qed.

Lemma key_insert_other (b : string) (tc t : Z) (m : list (string * Z)) :
  tc ≠ t → QMultiMap.key t (QMultiMap.insert b tc m) = QMultiMap.key t m.
Proof.
  intros Hne. induction m as [|[k' v'] m IH]; simpl.
  - by rewrite (proj2 (Z.eqb_neq _ _) Hne).
  - destruct (String.ltb k' b); simpl.
    + by rewrite IH.
    + by rewrite (proj2 (Z.eqb_neq _ _) Hne).
Qed.

Lemma key_insertToolChain (b : string) (m : list (string * Z)) (tok : string) (t : Z) :
  QMultiMap.key t m ≠ "" → QMultiMap.key t (insertToolChain b m tok) = QMultiMap.key t m.
Proof.
  intros Ht. unfold insertToolChain.
  destruct (QString.isEmpty _) eqn:E; [|done]. apply isEmpty_true in E.
  apply key_insert_other. intros Heq. rewrite Heq in E. done.
Qed.

Lemma key_decodeLines (lines : list string) :
  ∀ m t, QMultiMap.key t m ≠ "" → QMultiMap.key t (decodeLines m lines) = QMultiMap.key t m.
Proof.
  induction lines as [|line lines IH]; intros m t Ht; [done|].
  unfold decodeLines in *. cbn [foldl].
  assert (Hl : QMultiMap.key t (decodeLine m line) = QMultiMap.key t m).
  { unfold decodeLine. destruct (QString.split "," line) as [|b tokens]; [done|].
    revert m Ht. induction tokens as [|tok tokens IHt]; intros m Ht; [done|].
    cbn [foldl]. rewrite IHt; rewrite key_insertToolChain; done. }
  rewrite IH; rewrite Hl; done.
Qed.

(** X9.  The first configuration of a toolchain wins: once the lines read
    so far give a toolchain a binary, no later line of the flat list changes
    which binary [key] reports for it. *)
Theorem gdbBinaryToolChainMapFromSettings_first_wins (settings : QSettings)
    (lines later : list string) (t : Z) :
  storedLines settings 1 (lines ++ later ++ [""]) →
  Forall (fun l => goodLine l = true) (lines ++ later) →
  QMultiMap.key t (decodeLines [] lines) ≠ "" →
  ∃ m, gdbBinaryToolChainMapFromSettings settings = Some m
       ∧ QMultiMap.key t m = QMultiMap.key t (decodeLines [] lines).
Proof.
  intros Hst Hgood Ht.
  assert (Hk : QMultiMap.key t (decodeLines [] (lines ++ later))
               = QMultiMap.key t (decodeLines [] lines)).
  { unfold decodeLines. rewrite foldl_app. by apply key_decodeLines. }
  exists (decodeLines [] (lines ++ later)). split; [|done].
  apply gdbBinaryToolChainMapFromSettings_lines; [by rewrite <- app_assoc|done|].
  intros E. rewrite E in Hk. by rewrite <- Hk in Ht.
Qed.

End DecodedMaps.

Lemma sampleSettings_noLeadingComma : noLeadingComma sampleSettings.
Proof.
  change (map_Forall (fun (_ : string) v => String.prefix "," (QVariant.toString v) = false)
                     (values sampleSettings)).
  apply (bool_decide_unpack _). vm_compute. exact I.
Qed.

Lemma unixBuild_toolChainsDistinct : @toolChainsDistinct unixBuild.
Proof.
  split; [apply (bool_decide_unpack _); vm_compute; exact I|].
  repeat constructor.
Qed.

(** Witness of [gdbBinaryToolChainMapFromSettings_representable]: the
    sample store decodes to the sample map. *)
Lemma gdbBinaryToolChainMapFromSettings_representable_witness : representable sampleMap.
Proof.
  apply (@gdbBinaryToolChainMapFromSettings_representable unixBuild sampleSettings sampleMap).
  - exact sampleSettings_noLeadingComma.
  - right. exact unixBuild_toolChainsDistinct.
  - vm_compute. reflexivity.
Defined.

(** Witness of [gdbBinaryToolChainMap_transfer]: the map of the sample store
    carried over to the store with two conflicting lines. *)
Lemma gdbBinaryToolChainMap_transfer_witness :
  ∃ target' m',
    @writeSettings unixBuild conflictSettings (withMap sampleMap) = Some target'
    ∧ @gdbBinaryToolChainMapFromSettings unixBuild target' = Some m'
    ∧ m' ≡ₚ sampleMap.
Proof.
  apply (@gdbBinaryToolChainMap_transfer unixBuild sampleSettings conflictSettings
           (withMap sampleMap)).
  - exact sampleSettings_noLeadingComma.
  - right. exact unixBuild_toolChainsDistinct.
  - vm_compute. reflexivity.
  - discriminate.
Defined.

(** Witness of [gdbBinaryToolChainMapFromSettings_first_wins]: toolchain 1
    stays with gdb although the second line names it for another binary. *)
Lemma gdbBinaryToolChainMapFromSettings_first_wins_witness :
  ∃ m, @gdbBinaryToolChainMapFromSettings unixBuild conflictSettings = Some m
       ∧ QMultiMap.key 1 m = QMultiMap.key 1 (decodeLines [] ["gdb,1"]).
Proof.
  apply (@gdbBinaryToolChainMapFromSettings_first_wins unixBuild conflictSettings
           ["gdb,1"] ["other_gdb,1,2"] 1).
  - intros j x Hj. destruct j as [|[|[|j]]]; try discriminate Hj;
      injection Hj as <-; vm_compute; reflexivity.
  - repeat constructor.
  - vm_compute. discriminate.
Defined.

(** Why [noLeadingComma] is asked for: [key] returns the empty string both
    for "no binary" and for the empty binary, so the check lets a toolchain
    of the empty binary in twice. *)
Example gdbBinaryToolChainMapFromSettings_empty_binary :
  @gdbBinaryToolChainMapFromSettings windowsBuild emptyBinarySettings
  = Some [("", 1); ("", 1)].
Proof. vm_compute. reflexivity. Qed.

(** ** Writing the flat list *)

Section WritingMore.

Context `{Build}.

Lemma buildSettingsList_nonempty (m : list (string * Z)) :
  ∀ lastBinary l x, ∃ lastBinary' l' x',
    buildSettingsList (lastBinary, l ++ [x]) m = Some (lastBinary', l' ++ [x']).
Proof.
  induction m as [|[k v] m IH]; intros lastBinary l x; cbn [buildSettingsList].
  - by exists lastBinary, l, x.
  - unfold appendToolChain. cbn [fst snd].
    destruct (negb (String.eqb k lastBinary)); unfold QStringList.push_back;
      rewrite !back_append_snoc; cbn [mbind option_bind];
      rewrite !back_append_snoc; cbn [mbind option_bind]; apply IH.
Qed.

Lemma buildSettingsList_None (m : list (string * Z)) :
  buildSettingsList ("", []) m = None ↔ ∃ v m', m = ("", v) :: m'.
Proof.
  destruct m as [|[k v] m]; cbn [buildSettingsList].
  - split; [done|]. by intros (? & ? & ?).
  - unfold appendToolChain. cbn [fst snd].
    destruct (String.eqb_spec k "") as [->|Hk]; cbn [negb].
    + split; [by exists v, m|done].
    + unfold QStringList.push_back. rewrite (back_append_snoc [] k). cbn [mbind option_bind].
      rewrite (back_append_snoc [] (k +:+ ",")). cbn [mbind option_bind].
      destruct (buildSettingsList_nonempty m k [] ((k +:+ ",") +:+ QString.number v))
        as (lb & l' & x' & ->).
      split; [done|]. intros (? & ? & [= -> _ _]). done.
Qed.

(** X10.  [writeSettings] is undefined in exactly one situation: the list
    has to be rewritten (the store does not already decode to the in-memory
    map) and the first binary of the map is the empty string, which makes
    the loop append to the last element of an empty list.  Every other map
    is written, whatever its binaries and toolchains. *)
Theorem writeSettings_defined (settings : QSettings) (d : DebuggerSettings) :
  writeSettings settings d = None
  ↔ gdbBinaryToolChainMapFromSettings (writeItems settings d)
      ≠ Some (m_gdbBinaryToolChainMap d)
    ∧ ∃ v m', m_gdbBinaryToolChainMap d = ("", v) :: m'.
Proof.
  unfold writeSettings.
  destruct (gdbBinaryToolChainMapFromSettings_total (writeItems settings d)) as [stored ->].
  cbn [mbind option_bind]. case_bool_decide as Heq.
  - split; [done|]. intros [Hne _]. by rewrite Heq in Hne.
  - rewrite <- buildSettingsList_None.
    destruct (buildSettingsList ("", []) (m_gdbBinaryToolChainMap d)); cbn [mbind option_bind].
    + split; [done|]. by intros [_ ?].
    + split; [|done]. intros _. split; [|done]. intros [= E]. by rewrite E in Heq.
Qed.







(** X12.  [readSettings] returns for every store.  It keeps exactly the
    registered codes, hands every item the store to read from, and replaces
    the in-memory map by the map decoded from the store; the map held
    before plays no role. *)
Theorem readSettings_returns (settings : QSettings) (d : DebuggerSettings) :
  ∃ d', readSettings settings d = Some d'
        ∧ dom (m_items d') = dom (m_items d)
        ∧ (∀ code, item d' code = SavedAction.readSettings settings <$> item d code)
        ∧ gdbBinaryToolChainMapFromSettings settings = Some (m_gdbBinaryToolChainMap d')
        ∧ ∀ m, readSettings settings (mkDebuggerSettings (m_items d) m) = Some d'.
Proof.
  unfold readSettings.
  destruct (gdbBinaryToolChainMapFromSettings_total settings) as [m ->].
  eexists. split; [done|]. cbn [m_items m_gdbBinaryToolChainMap].
  split; [apply dom_fmap_L|]. split; [|done].
  intros code. rewrite !item_lookup. cbn [m_items]. apply lookup_fmap.
Qed.

End WritingMore.

(** ** The dump *)

Section Dump.

Lemma prefix_append_r (p out x : string) :
  String.prefix p out = true → String.prefix p (out +:+ x) = true.
Proof.
  revert out. induction p as [|a p IH]; intros out; [by destruct (out +:+ x)|].
  destruct out as [|b out]; [done|]. rewrite append_cons. simpl.
  destruct (ascii_dec a b); [apply IH|done].
Qed.

Lemma dumpItem_prefix (p out : string) (a : SavedAction) :
  String.prefix p out = true → String.prefix p (dumpItem out a) = true.
Proof.
  intros Hp. unfold dumpItem.
  destruct (negb (QString.isEmpty (settingsKey a))); [|done].
  destruct (negb _); repeat apply prefix_append_r; done.
Qed.

Lemma dumpItem_skip (out : string) (a : SavedAction) :
  settingsKey a = "" → dumpItem out a = out.
Proof. intros E. unfold dumpItem. by rewrite E. Qed.

(** X16.  [dump] always starts with the heading "Debugger settings: ";
    items without a settings key leave no trace in it, so the text is the
    one produced from the items that have a key, and a registry without
    such items dumps as the bare heading. *)
Theorem dump_lists_keyed_items (d : DebuggerSettings) :
  String.prefix "Debugger settings: " (dump d) = true
  ∧ dump d = foldl dumpItem "Debugger settings: "
               (filter (fun a => settingsKey a ≠ "") (map_to_list (m_items d)).*2)
  ∧ ((∀ code a, m_items d !! code = Some a → settingsKey a = "") →
     dump d = "Debugger settings: ").
Proof.
  unfold dump. split; [|split].
  - generalize (map_to_list (m_items d)).*2 as l.
    assert (Hp : String.prefix "Debugger settings: " "Debugger settings: " = true) by done.
    revert Hp. generalize "Debugger settings: " at 2 4 as out.
    intros out Hp l. revert out Hp.
    induction l as [|a l IH]; intros out Hp; [done|]. cbn [foldl].
    apply IH. by apply dumpItem_prefix.
  - generalize (map_to_list (m_items d)).*2 as l. generalize "Debugger settings: " as out.
    intros out l. revert out. induction l as [|a l IH]; intros out; [done|].
    cbn [foldl]. rewrite filter_cons. case_decide as Hk.
    + cbn [foldl]. apply IH.
    + rewrite dumpItem_skip; [apply IH|]. by destruct (decide (settingsKey a = "")).
  - intros Hnokey.
    assert (Hl : Forall (fun a => settingsKey a = "") (map_to_list (m_items d)).*2).
    { apply Forall_forall. intros a [[code a'] [-> Hin]]%list_elem_of_fmap.
      apply elem_of_map_to_list in Hin. by apply (Hnokey code). }
    revert Hl. generalize (map_to_list (m_items d)).*2 as l.
    generalize "Debugger settings: " as out.
    intros out l Hl. revert out. induction Hl as [|a l Ha Hl IH]; intros out; [done|].
    cbn [foldl]. by rewrite dumpItem_skip.
Qed.

End Dump.

